(** * unified: Parse / Transform / Compile

    A shallow embedding of [index.js] (the [unified] factory and the
    Processor it builds) into a state-and-exception monad over an explicit
    JavaScript object store, with the properties of its API proved on it. *)

From Stdlib Require Import String List Bool.
From stdpp Require Import base option gmap strings list fin_maps.

Local Open Scope string_scope.
Local Open Scope list_scope.

(** ** Values *)

Definition loc := positive.

(** Functions the program can meet.  [Bail] is the [bail] dependency,
    [Closure n] a function written by the user (its behaviour is given by the
    host, see [Host]), [ProcessorCtor] the constructor [Processor] itself
    (the bare family class), [Ctor impl clone] a Parser or Compiler class:
    the one given to [unified] ([clone = None]) or one derived from it by
    [unherit]. *)
Inductive func : Type :=
| Bail
| Closure (n : nat)
| ProcessorCtor
| Ctor (impl : nat) (clone : option loc).

Inductive value : Type :=
| Undefined
| Null
| Bool (b : bool)
| Str (s : string)
| Fn (f : func)
| Obj (l : loc)         (* a plain object: a tree node, settings, an error *)
| File (l : loc)        (* an instance of VFile *)
| Proc (l : loc)        (* an instance of Processor *)
| Ware (l : loc)        (* an instance of AttachWare *)
| Error_ (msg : string)       (* new Error(msg) *)
| TypeError (msg : string).   (* raised by the language itself *)

#[global] Instance func_eq_dec : EqDecision func.
Proof. solve_decision. Defined.
#[global] Instance value_eq_dec : EqDecision value.
Proof. solve_decision. Defined.

(** JavaScript truthiness. *)
Definition truthy (v : value) : bool :=
  match v with
  | Undefined | Null => false
  | Bool b => b
  | Str s => negb (String.eqb s "")
  | _ => true
  end.

(** [typeof v === 'function'], [typeof v === 'string'], [v instanceof VFile],
    [v instanceof Processor]. *)
Definition is_function (v : value) : bool :=
  match v with Fn _ => true | _ => false end.
Definition is_string (v : value) : bool :=
  match v with Str _ => true | _ => false end.
Definition is_VFile (v : value) : bool :=
  match v with File _ => true | _ => false end.
Definition is_Processor (v : value) : bool :=
  match v with Proc _ => true | _ => false end.

(** [v === null || v === undefined]. *)
Definition absent (v : value) : bool :=
  match v with Null | Undefined => true | _ => false end.

(** ['' + v] for the values that can be falsy. *)
Definition to_string (v : value) : string :=
  match v with
  | Undefined => "undefined"
  | Null => "null"
  | Bool true => "true"
  | Bool false => "false"
  | Str s => s
  | Fn _ => "function"
  | Error_ m => "Error: " +:+ m
  | TypeError m => "TypeError: " +:+ m
  | _ => "[object Object]"
  end.

(** ** The object store *)

(** A carrier file: its text and the namespaced bags of metadata. *)
Record vfile : Type := MkVFile {
  contents : string;
  spaces : gmap string (gmap string value)
}.

(** The own fields of a Processor instance. *)
Record processor : Type := MkProcessor {
  p_ware : value;
  p_Parser : value;
  p_Compiler : value;
  p_data : value
}.

(** An ordered registry: each entry is a registered function with the
    arguments bound to it, and [context] is the [this] of its functions. *)
Record attach_ware : Type := MkWare {
  fns : list (value * list value);
  context : value
}.

Record heap : Type := MkHeap {
  procs : gmap loc processor;
  files : gmap loc vfile;
  wares : gmap loc attach_ware;
  objs : gmap loc (gmap string value);
  classes : gset loc
}.

Definition empty_heap : heap := MkHeap ∅ ∅ ∅ ∅ ∅.

(** How a call of a user's function ends: it returns, it calls the
    continuation it was given with [err], or it throws. *)
Inductive completion : Type :=
| Returned
| Continued (err : value)
| Raised (e : value).

(** What [run] is given as [done]: a value of the caller, or the
    continuation [next] of the pipeline, which leaves its first argument in
    the cell [k]. *)
Inductive callback : Type :=
| Done (f : value)
| Next (k : loc).

(** What the program did, in order: a registered function called by the
    runner and how it ended, a callback called, a Parser or Compiler built
    and asked to [parse()] or [compile()], the pipeline reaching its last
    function, which calls [stringify]. *)
Inductive event : Type :=
| EvTransform (f : value) (this : value) (args : list value) (c : completion)
| EvCallback (done : callback) (args : list value)
| EvParse (impl : nat) (file settings proc : value)
| EvCompile (impl : nat) (file settings proc : value)
| EvStringify (node file settings : value).

(** The store the user's code sees ([st_heap]), the cells in which the
    pipeline's continuations leave their argument, and the log. *)
Record state : Type := MkState {
  st_heap : heap;
  st_cells : gmap loc value;
  st_trace : list event
}.

Definition init_state : state := MkState empty_heap ∅ [].

(** ** The monad: state passing with JavaScript exceptions *)

Inductive outcome (A : Type) : Type :=
| Ok (a : A)
| Throw (e : value).
Arguments Ok {A} a.
Arguments Throw {A} e.

Definition M (A : Type) : Type := state -> outcome A * state.

Definition ret {A} (a : A) : M A := fun s => (Ok a, s).
Definition throw {A} (e : value) : M A := fun s => (Throw e, s).
Definition bind {A B} (m : M A) (k : A -> M B) : M B :=
  fun s => match m s with
           | (Ok a, s') => k a s'
           | (Throw e, s') => (Throw e, s')
           end.
(** [try { m } catch (e) { ... }]: the exception becomes a value. *)
Definition try_ {A} (m : M A) : M (outcome A) :=
  fun s => let '(r, s') := m s in (Ok r, s').

Notation "x <~ m ;; k" := (bind m (fun x => k))
  (at level 100, m at next level, right associativity).
Notation "m ;;; k" := (bind m (fun _ => k))
  (at level 100, right associativity).

Definition get_heap : M heap := fun s => (Ok (st_heap s), s).
Definition modify_heap (f : heap -> heap) : M unit :=
  fun s => (Ok tt, MkState (f (st_heap s)) (st_cells s) (st_trace s)).
Definition log (e : event) : M unit :=
  fun s => (Ok tt, MkState (st_heap s) (st_cells s) (st_trace s ++ [e])).

(** A promise, by the way it settles. *)
Inductive promise (A : Type) : Type :=
| Resolved (a : A)
| Rejected (e : value).
Arguments Resolved {A} a.
Arguments Rejected {A} e.

(** The code this program calls but does not contain: the user's functions
    (plugins, callbacks) and the Parser and Compiler implementations.  They
    act on the object store alone. *)
Class Host : Type := MkHost {
  call_closure : nat -> value -> list value -> heap -> completion * heap;
  (* new P(file, settings, processor).parse() for the class with body impl *)
  parser_parse : nat -> value -> value -> value -> heap -> outcome (promise value) * heap;
  (* new C(file, settings, processor).compile() *)
  compiler_compile : nat -> value -> value -> value -> heap -> outcome value * heap
}.

(** ** Property access *)

Definition proc_field (p : processor) (k : string) : value :=
  if String.eqb k "ware" then p_ware p
  else if String.eqb k "Parser" then p_Parser p
  else if String.eqb k "Compiler" then p_Compiler p
  else if String.eqb k "data" then p_data p
  else Undefined.

(** [v[k]] for a [v] that is neither null nor undefined.  The methods of
    the prototype and the statics of the class are called by name in this
    development and are not looked up here. *)
Definition prop (h : heap) (v : value) (k : string) : value :=
  match v with
  | Obj l => default Undefined (objs h !! l ≫= fun o => o !! k)
  | Proc l => from_option (fun p => proc_field p k) Undefined (procs h !! l)
  | _ => Undefined
  end.

(** [v.k]: a TypeError on null and undefined. *)
Definition get_member (v : value) (k : string) : M value :=
  match v with
  | Undefined | Null =>
      throw (TypeError ("Cannot read property '" +:+ k +:+ "' of " +:+ to_string v))
  | _ => h <~ get_heap ;; ret (prop h v k)
  end.

(** ** Store primitives *)

Definition set_procs (f : gmap loc processor -> gmap loc processor) (h : heap) : heap :=
  MkHeap (f (procs h)) (files h) (wares h) (objs h) (classes h).
Definition set_files (f : gmap loc vfile -> gmap loc vfile) (h : heap) : heap :=
  MkHeap (procs h) (f (files h)) (wares h) (objs h) (classes h).
Definition set_wares (f : gmap loc attach_ware -> gmap loc attach_ware) (h : heap) : heap :=
  MkHeap (procs h) (files h) (f (wares h)) (objs h) (classes h).
Definition set_objs (f : gmap loc (gmap string value) -> gmap loc (gmap string value))
    (h : heap) : heap :=
  MkHeap (procs h) (files h) (wares h) (f (objs h)) (classes h).
Definition set_classes (f : gset loc -> gset loc) (h : heap) : heap :=
  MkHeap (procs h) (files h) (wares h) (objs h) (f (classes h)).

(** [new Object]: a fresh location holding [o]. *)
Definition alloc_obj (o : gmap string value) : M loc :=
  h <~ get_heap ;;
  let l := fresh (dom (objs h)) in
  modify_heap (set_objs (insert l o)) ;;; ret l.

Definition blank_file : vfile := MkVFile "" ∅.
Definition blank_ware : attach_ware := MkWare [] Undefined.

Definition file_at (h : heap) (l : loc) : vfile := default blank_file (files h !! l).
Definition ware_at (h : heap) (l : loc) : attach_ware := default blank_ware (wares h !! l).

(** The bag [file.data[key]] and its [tree] field. *)
Definition bag (h : heap) (l : loc) (key : string) : gmap string value :=
  default ∅ (spaces (file_at h l) !! key).
Definition slot_tree (h : heap) (l : loc) (key : string) : value :=
  default Undefined (bag h l key !! "tree").

Definition set_bag (l : loc) (key : string) (b : gmap string value) (h : heap) : heap :=
  set_files (insert l (MkVFile (contents (file_at h l))
                               (<[key := b]> (spaces (file_at h l))))) h.

(** ** The carrier file *)

(** Modelled from the spec: the carrier file of the [vfile] dependency,
    "constructible from a string, from structured content, or by copying
    another carrier file", with "a [namespace(key)] accessor returning a
    mutable per-key metadata bag".  A carrier file given to the constructor
    is handed back itself, so that the bag a later call reads is the one an
    earlier call wrote (the fill-then-read property of the spec). *)
Definition VFile (options : value) : M loc :=
  match options with
  | File l => ret l
  | _ =>
      h <~ get_heap ;;
      let text := match options with
                  | Str s => s
                  | Obj _ => match prop h options "contents" with Str s => s | _ => "" end
                  | _ => ""
                  end in
      let l := fresh (dom (files h)) in
      modify_heap (set_files (insert l (MkVFile text ∅))) ;;; ret l
  end.

(** Modelled from the spec: [file.namespace(key)], which makes the bag when
    the file has none under [key] and returns it; the bag is named by the
    file and the key. *)
Definition namespace (file : loc) (key : string) : M (loc * string) :=
  modify_heap (fun h => set_bag file key (bag h file key) h) ;;; ret (file, key).

(** [space.k] and [space.k = v]. *)
Definition space_get (space : loc * string) (k : string) : M value :=
  h <~ get_heap ;; ret (default Undefined (bag h space.1 space.2 !! k)).
Definition space_set (space : loc * string) (k : string) (v : value) : M unit :=
  modify_heap (fun h => set_bag space.1 space.2 (<[k := v]> (bag h space.1 space.2)) h).

(** ** The other dependencies *)

(** Modelled from the spec: the Subclass Deriver ([unherit]), which "given a
    constructor, returns a new constructor with an independent prototype
    chain and independent static property bag". *)
Definition unherit (Super : value) : M value :=
  match Super with
  | Fn (Ctor impl _) =>
      h <~ get_heap ;;
      let c := fresh (classes h) in
      modify_heap (set_classes (union {[c]})) ;;; ret (Fn (Ctor impl (Some c)))
  | _ => throw (TypeError "Super expression must be a function")
  end.

(** Modelled from the spec: the deep copy [extend(true, {}, v)] by which
    the default metadata is "deep-copied so mutation is instance-local".
    Every object reached is copied to a fresh location; [fuel] bounds the
    depth, and what lies deeper stays shared. *)
Fixpoint extend_deep (fuel : nat) (v : value) (h : heap) : value * heap :=
  match fuel with
  | O => (v, h)
  | S n =>
      match v with
      | Obj l =>
          match objs h !! l with
          | None => (v, h)
          | Some o =>
              let '(o', h') :=
                foldr (fun kx acc =>
                         let '(m, h1) := acc in
                         let '(x', h2) := extend_deep n (snd kx) h1 in
                         (<[fst kx := x']> m, h2))
                      (∅, h) (map_to_list o) in
              let l' := fresh (dom (objs h')) in
              (Obj l', set_objs (insert l' o') h')
          end
      | _ => (v, h)
      end
  end.

Definition extend (v : value) : M value :=
  fun s =>
    let '(v', h') := extend_deep (S (size (objs (st_heap s)))) v (st_heap s) in
    (Ok v', MkState h' (st_cells s) (st_trace s)).

(** Modelled from the spec: the [bail] dependency, the "bail on error"
    default callback: [bail(err)] throws [err] when there is one. *)
Definition bail (err : value) : M value :=
  if truthy err then throw err else ret Undefined.

(** Modelled from the spec: the registry of the [attach-ware] dependency,
    an "ordered-middleware runner bound to this instance as execution
    context".  [new AttachWare()] is an empty one. *)
Definition new_AttachWare : M loc :=
  h <~ get_heap ;;
  let l := fresh (dom (wares h)) in
  modify_heap (set_wares (insert l blank_ware)) ;;; ret l.

(** Modelled from the spec: [ware.use(transformer, ...args)] "registers
    transformer (optionally pre-bound with args) at the end" of the
    registry. *)
Definition ware_use (w : loc) (arguments : list value) : M unit :=
  match arguments with
  | [] => ret tt
  | f :: bound =>
      modify_heap (fun h =>
        set_wares (insert w (MkWare (fns (ware_at h w) ++ [(f, bound)])
                                    (context (ware_at h w)))) h)
  end.

(** ** [unified(options)]: one Processor family *)

(** The [options] of the factory: [options.name], the bodies of
    [options.Parser] and [options.Compiler], and [options.data]. *)
Class Family : Type := MkFamily {
  name : string;
  Parser : nat;
  Compiler : nat;
  data : value
}.

Section unified.

Context `{host : Host} `{fam : Family}.

Definition Parser_class : value := Fn (Ctor Parser None).
Definition Compiler_class : value := Fn (Ctor Compiler None).

(** [Processor.data = proto.data = data || null] (line 284). *)
Definition proto_data : value := if truthy data then data else Null.

(** An object made by [new] from [Processor.prototype], before the
    constructor ran: no own field, [data] seen through the prototype. *)
Definition blank_processor : processor :=
  MkProcessor Undefined Undefined Undefined proto_data.

Definition proc_at (h : heap) (l : loc) : processor :=
  default blank_processor (procs h !! l).

Definition set_proc (l : loc) (f : processor -> processor) : M unit :=
  modify_heap (fun h => set_procs (insert l (f (proc_at h l))) h).

(** The body of the constructor past its guard (lines 72-80), on the
    instance at [self]. *)
Definition Processor_init (self : loc) : M unit :=
  w <~ new_AttachWare ;;
  set_proc self (fun p => MkProcessor (Ware w) (p_Parser p) (p_Compiler p) (p_data p)) ;;;
  modify_heap (fun h => set_wares (insert w (MkWare (fns (ware_at h w)) (Proc self))) h) ;;;
  P <~ unherit Parser_class ;;
  set_proc self (fun p => MkProcessor (p_ware p) P (p_Compiler p) (p_data p)) ;;;
  C <~ unherit Compiler_class ;;
  set_proc self (fun p => MkProcessor (p_ware p) (p_Parser p) C (p_data p)) ;;;
  d <~ get_member (Proc self) "data" ;;
  if truthy d then
    d' <~ extend d ;;
    set_proc self (fun p => MkProcessor (p_ware p) (p_Parser p) (p_Compiler p) d')
  else ret tt.

(** [new Processor(processor)]. *)
Definition new_Processor (processor : value) : M value :=
  h <~ get_heap ;;
  let l := fresh (dom (procs h)) in
  modify_heap (set_procs (insert l blank_processor)) ;;;
  Processor_init l ;;;
  ret (Proc l).

(** [Processor.call(this, processor)] (lines 65-81): without an instance as
    receiver the call is [new Processor(processor)]; with one, the body runs
    on the receiver and the call returns nothing. *)
Definition Processor (this processor : value) : M value :=
  let self := this in
  if negb (is_Processor self) then new_Processor processor
  else match self with
       | Proc l => Processor_init l ;;; ret Undefined
       | _ => ret Undefined
       end.

(** [instance(context)] (lines 93-95). *)
Definition instance (context : value) : M value :=
  if is_Processor context then ret context else new_Processor Undefined.

(** [w.use.apply(w, arguments)] for whatever [self.ware] holds. *)
Definition call_use (w : value) (arguments : list value) : M unit :=
  match w with
  | Ware l => ware_use l arguments
  | Undefined | Null => get_member w "use" ;;; ret tt
  | _ => throw (TypeError "use is not a function")
  end.

(** [use(...arguments)] (lines 105-111). *)
Definition use (this : value) (arguments : list value) : M value :=
  self <~ instance this ;;
  w <~ get_member self "ware" ;;
  call_use w arguments ;;;
  ret self.

(** ** Calling functions *)

Definition run_closure (n : nat) (this : value) (args : list value) : M completion :=
  fun s =>
    let '(c, h') := call_closure n this args (st_heap s) in
    (Ok c, MkState h' (st_cells s) (st_trace s)).

(** [next(err)]: the continuation leaves its first argument in its cell. *)
Definition resume (k : loc) (err : value) : M unit :=
  fun s => (Ok tt, MkState (st_heap s) (<[k := err]> (st_cells s)) (st_trace s)).

(** [f.apply(this, args)]. *)
Definition apply (f this : value) (args : list value) : M value :=
  match f with
  | Fn Bail => bail (nth 0 args Undefined)
  | Fn (Closure n) =>
      c <~ run_closure n this args ;;
      match c with
      | Raised e => throw e
      | _ => ret Undefined
      end
  | Fn ProcessorCtor => Processor this (nth 0 args Undefined)
  | Fn (Ctor _ _) => throw (TypeError "Class constructor cannot be invoked without 'new'")
  | _ => throw (TypeError (to_string f +:+ " is not a function"))
  end.

(** [done(...args)]. *)
Definition call_done (done : callback) (args : list value) : M unit :=
  log (EvCallback done args) ;;;
  match done with
  | Done f => apply f Undefined args ;;; ret tt
  | Next k => resume k (nth 0 args Undefined)
  end.

(** The error a call ends with: what it gave to its continuation or threw,
    when that is not a falsy value. *)
Definition error_of (c : completion) : option value :=
  match c with
  | Returned => None
  | Continued err | Raised err => if truthy err then Some err else None
  end.

(** A registered function is called by the runner; the continuation it is
    handed is not among [args]: what it does with it is its completion. *)
Definition invoke (f ctx : value) (args : list value) : M completion :=
  c <~ match f with
       | Fn (Closure n) => run_closure n ctx args
       | _ =>
           r <~ try_ (apply f ctx args) ;;
           ret (match r with Ok _ => Returned | Throw e => Raised e end)
       end ;;
  log (EvTransform f ctx args c) ;;;
  ret c.

(** Modelled from the spec: the Ordered Async Runner (the [ware]
    dependency): "executing it invokes each function in turn, passing a
    completion callback; a function may finish synchronously (no callback
    invoked, implicit continue) or asynchronously (invoke callback with an
    error or nothing); the runner stops and reports upward on first error".
    The result is the error reported, if any. *)
Fixpoint ware_loop (ctx : value) (fs : list (value * list value)) (args : list value)
    : M (option value) :=
  match fs with
  | [] => ret None
  | (f, bound) :: rest =>
      c <~ invoke f ctx (bound ++ args) ;;
      match error_of c with
      | Some err => ret (Some err)
      | None => ware_loop ctx rest args
      end
  end.

(** Modelled from the spec: [ware.run(...args, done)]: the registered
    functions in order, then [done(err)] or [done(null, ...args)]. *)
Definition ware_run (w : loc) (args : list value) (done : callback) : M unit :=
  h <~ get_heap ;;
  r <~ ware_loop (context (ware_at h w)) (fns (ware_at h w)) args ;;
  match r with
  | Some err => call_done done [err]
  | None => call_done done (Null :: args)
  end.

(** [w.fns] as a condition, and [w.run(node, file, done)], for whatever
    [self.ware] holds; only a registry of AttachWare has a [run]. *)
Definition has_fns (w : value) : M bool :=
  match w with
  | Ware _ => ret true
  | _ => x <~ get_member w "fns" ;; ret (truthy x)
  end.

Definition call_run (w : value) (args : list value) (done : callback) : M unit :=
  match w with
  | Ware l => ware_run l args done
  | _ => throw (TypeError "self.ware.run is not a function")
  end.

(** ** Transform *)

(** Lines 132-148 of [run], repeated word for word as lines 216-232 of
    [stringify]: a first argument without a [type] is the file; the file is
    normalised; the tree is the one given (stored in the namespace slot when
    the slot is empty) or the one of the slot; no tree is an error. *)
Definition resolve_tree (node file : value) : M (value * value) :=
  h <~ get_heap ;;
  let swap := negb (truthy file) && truthy node && negb (truthy (prop h node "type")) in
  let file1 := if swap then node else file in
  let node1 := if swap then Null else node in
  f <~ VFile file1 ;;
  space <~ namespace f name ;;
  t <~ space_get space "tree" ;;
  node2 <~ (if negb (truthy node1) then ret (if truthy t then t else node1)
            else if negb (truthy t) then space_set space "tree" node1 ;;; ret node1
            else ret node1) ;;
  if negb (truthy node2) then throw (Error_ ("Expected node, got " +:+ to_string node2))
  else ret (node2, File f).

(** [typeof done === 'function' ? done : bail] (line 150). *)
Definition done_or_bail (done : callback) : callback :=
  match done with
  | Done f => if is_function f then done else Done (Fn Bail)
  | Next _ => done
  end.

(** Lines 150-161 of [run]: the default callback, then the registry of the
    receiver when it has one, the callback at once when it has none. *)
Definition dispatch (self node file : value) (done : callback) : M unit :=
  let done1 := done_or_bail done in
  w <~ get_member self "ware" ;;
  b <~ (if truthy w then has_fns w else ret false) ;;
  if b then call_run w [node; file] done1
  else call_done done1 [Null; node; file].

(** [run(node, file, done)] (lines 123-164). *)
Definition run (this node file : value) (done : callback) : M value :=
  let self := this in
  let done1 := if is_function file then Done file else done in
  let file1 := if is_function file then Null else file in
  nf <~ resolve_tree node file1 ;;
  dispatch self (fst nf) (snd nf) done1 ;;;
  ret (fst nf).

(** ** Parse and stringify *)

(** A Parser or Compiler object: its class body and constructor arguments. *)
Record built : Type := MkBuilt {
  b_impl : nat;
  b_file : value;
  b_settings : value;
  b_processor : value
}.

(** [new C(file, settings, processor)]. *)
Definition new_ (C file settings processor : value) : M built :=
  match C with
  | Fn (Ctor impl _) => ret (MkBuilt impl file settings processor)
  | _ => throw (TypeError (to_string C +:+ " is not a constructor"))
  end.

(** [(this && this[k]) || fallback] (lines 168 and 208). *)
Definition own_class (this : value) (k : string) (fallback : value) : M value :=
  h <~ get_heap ;;
  let v := if truthy this then prop h this k else this in
  ret (if truthy v then v else fallback).

(** [createParser(value, settings)] (lines 166-170). *)
Definition createParser (this value_ settings : value) : M built :=
  file <~ VFile value_ ;;
  CustomParser <~ own_class this "Parser" Parser_class ;;
  p <~ instance this ;;
  new_ CustomParser (File file) settings p.

(** [this.createParser(...)]: the method is on the class and on its
    prototype; any other receiver has none. *)
Definition call_createParser (this value_ settings : value) : M built :=
  match this with
  | Proc _ | Fn ProcessorCtor => createParser this value_ settings
  | Undefined | Null =>
      throw (TypeError ("Cannot read property 'createParser' of " +:+ to_string this))
  | _ => throw (TypeError "this.createParser is not a function")
  end.

(** [parser.parse()] and [compiler.compile()], run by the host. *)
Definition parse_of (b : built) : M (promise value) :=
  log (EvParse (b_impl b) (b_file b) (b_settings b) (b_processor b)) ;;;
  fun s =>
    let '(r, h') := parser_parse (b_impl b) (b_file b) (b_settings b) (b_processor b)
                                 (st_heap s) in
    (r, MkState h' (st_cells s) (st_trace s)).

Definition compile_of (b : built) : M value :=
  log (EvCompile (b_impl b) (b_file b) (b_settings b) (b_processor b)) ;;;
  fun s =>
    let '(r, h') := compiler_compile (b_impl b) (b_file b) (b_settings b) (b_processor b)
                                     (st_heap s) in
    (r, MkState h' (st_cells s) (st_trace s)).

(** [parse(value, settings)] (lines 184-192). *)
Definition parse (this value_ settings : value) : M (promise value) :=
  file <~ VFile value_ ;;
  parser <~ call_createParser this (File file) settings ;;
  nodePromise <~ parse_of parser ;;
  match nodePromise with
  | Resolved node =>
      space <~ namespace file name ;;
      space_set space "tree" node ;;;
      ret (Resolved node)
  | Rejected e => ret (Rejected e)
  end.

(** [stringify(node, file, settings)] (lines 207-235). *)
Definition stringify (this node file settings : value) : M value :=
  CustomCompiler <~ own_class this "Compiler" Compiler_class ;;
  let settings1 := if absent settings then file else settings in
  let file1 := if absent settings then Null else file in
  nf <~ resolve_tree node file1 ;;
  p <~ instance this ;;
  compiler <~ new_ CustomCompiler (snd nf) settings1 p ;;
  compile_of compiler.

(** ** The pipeline *)

(** The object [opts] that [process] hands to the pipeline; a field not set
    is [Undefined]. *)
Record ctx : Type := MkCtx {
  ctx_context : value;
  ctx_settings : value;
  ctx_file : value;
  ctx_tree : value;
  ctx_result : value
}.

(** The three functions of [pipeline] (lines 28-39).  Each gives the error
    it ends with ([Null] for none) and [ctx] as it leaves it.  [ctx.context]
    is an instance in every call [process] makes, so that its methods are
    the ones of this family. *)
Definition pipeline_parse (c : ctx) : M (value * ctx) :=
  if truthy (ctx_tree c) then ret (Null, c)
  else
    p <~ parse (ctx_context c) (ctx_file c) (ctx_settings c) ;;
    match p with
    | Resolved tree =>
        ret (Null, MkCtx (ctx_context c) (ctx_settings c) (ctx_file c) tree (ctx_result c))
    | Rejected e => ret (e, c)
    end.

Definition pipeline_run (c : ctx) : M (value * ctx) :=
  fun s =>
    let k := fresh (dom (st_cells s)) in
    (run (ctx_context c) (ctx_tree c) (ctx_file c) (Next k) ;;;
     fun s' => (Ok (default Undefined (st_cells s' !! k), c), s')) s.

Definition pipeline_stringify (c : ctx) : M (value * ctx) :=
  log (EvStringify (ctx_tree c) (ctx_file c) (ctx_settings c)) ;;;
  r <~ stringify (ctx_context c) (ctx_tree c) (ctx_file c) (ctx_settings c) ;;
  ret (Null, MkCtx (ctx_context c) (ctx_settings c) (ctx_file c) (ctx_tree c) r).

Definition pipeline : list (ctx -> M (value * ctx)) :=
  [pipeline_parse; pipeline_run; pipeline_stringify].

(** Modelled from the spec: the Ordered Async Runner again, on the
    functions of [pipeline]: each in turn, an exception or a rejection
    being an error like one given to the continuation, and the first error
    ends the run. *)
Fixpoint steps_run (steps : list (ctx -> M (value * ctx))) (c : ctx) : M (value * ctx) :=
  match steps with
  | [] => ret (Null, c)
  | step :: rest =>
      r <~ try_ (step c) ;;
      match r with
      | Throw e => if truthy e then ret (e, c) else steps_run rest c
      | Ok (err, c') => if truthy err then ret (err, c') else steps_run rest c'
      end
  end.

(** The object [{file, result}]. *)
Record processed : Type := MkProcessed {
  r_file : value;
  r_result : value
}.

(** [process(value, settings)] (lines 248-271).  [opts] and the [res] the
    runner gives back are one object. *)
Definition process (this value_ settings : value) : M (promise processed) :=
  self <~ instance this ;;
  settings1 <~ (if truthy settings then ret settings
                else l <~ alloc_obj ∅ ;; ret (Obj l)) ;;
  opts <~ (if is_string value_ || is_VFile value_ then
             f <~ VFile value_ ;;
             ret (MkCtx self settings1 (File f) Undefined Undefined)
           else ret (MkCtx self settings1 Undefined value_ Undefined)) ;;
  r <~ steps_run pipeline opts ;;
  let '(err, res) := r in
  if truthy err then ret (Rejected err)
  else ret (Resolved (MkProcessed (ctx_file res) (ctx_result res))).

(** ** Notions used in the statements *)

(** [h'] differs from [h] in plain objects only. *)
Definition same_frame (h h' : heap) : Prop :=
  procs h' = procs h /\ files h' = files h /\ wares h' = wares h /\ classes h' = classes h.

(** A valid instance: its own registry, bound to it, and its own clones of
    the family's Parser and Compiler. *)
Definition valid_instance (h : heap) (l : loc) : Prop :=
  exists w c1 c2 d fs,
    procs h !! l = Some (MkProcessor (Ware w) (Fn (Ctor Parser (Some c1)))
                                     (Fn (Ctor Compiler (Some c2))) d) /\
    wares h !! w = Some (MkWare fs (Proc l)).

(** What [use(...arguments)] adds to a registry. *)
Definition registered (arguments : list value) : list (value * list value) :=
  match arguments with
  | [] => []
  | f :: bound => [(f, bound)]
  end.

(** The state with another store. *)
Definition with_heap (s : state) (h : heap) : state :=
  MkState h (st_cells s) (st_trace s).

(** The store after [new VFile(v)], and the file it gives. *)
Definition VFile_heap (v : value) (h : heap) : loc * heap :=
  match v with
  | File l => (l, h)
  | _ =>
      (fresh (dom (files h)),
       set_files (insert (fresh (dom (files h)))
                         (MkVFile match v with
                                  | Str t => t
                                  | Obj _ => match prop h v "contents" with
                                             | Str t => t
                                             | _ => ""
                                             end
                                  | _ => ""
                                  end ∅)) h)
  end.

(** The store after [file.namespace(name)], and after
    [file.namespace(name).tree = v]. *)
Definition ensure_space (f : loc) (h : heap) : heap :=
  set_bag f name (bag h f name) h.
Definition fill_space (f : loc) (v : value) (h : heap) : heap :=
  set_bag f name (<["tree" := v]> (bag h f name)) h.

(** The tree in the namespace slot of [v] when [v] is a carrier file; any
    other value is normalised to a new file, whose slot is empty. *)
Definition slot_of (h : heap) (v : value) : value :=
  match v with
  | File g => slot_tree h g name
  | _ => Undefined
  end.

(** No tree can be resolved: the tree argument is missing, or has no [type]
    and stands where the file is missing (it is then the file), and the
    slot of the carrier file is empty. *)
Definition no_tree (h : heap) (node file : value) : Prop :=
  (truthy node = false /\ truthy (slot_of h file) = false) \/
  (truthy node = true /\ truthy file = false /\
   truthy (prop h node "type") = false /\ truthy (slot_of h node) = false).

(** The log of one run of a registry [fs] on [args], and the error it ends
    with: the functions are called in the order of [fs], each after the one
    before it ended without error, and the first error ends the run. *)
Inductive run_log (ctx : value) (args : list value)
    : list (value * list value) -> list event -> option value -> Prop :=
| run_log_end : run_log ctx args [] [] None
| run_log_next f bound rest c evs ro :
    error_of c = None ->
    run_log ctx args rest evs ro ->
    run_log ctx args ((f, bound) :: rest) (EvTransform f ctx (bound ++ args) c :: evs) ro
| run_log_stop f bound rest c e :
    error_of c = Some e ->
    run_log ctx args ((f, bound) :: rest) [EvTransform f ctx (bound ++ args) c] (Some e).

(** The functions a log says were called, in the order of the calls. *)
Definition called (evs : list event) : list value :=
  omap (fun ev => match ev with EvTransform f _ _ _ => Some f | _ => None end) evs.

(** The registry [run] hands the tree to, and the [this] of its functions:
    the one in the [ware] field of the receiver, when it holds one. *)
Definition registry_of (h : heap) (self : value) : list (value * list value) :=
  match prop h self "ware" with
  | Ware w => fns (ware_at h w)
  | _ => []
  end.
Definition registry_context (h : heap) (self : value) : value :=
  match prop h self "ware" with
  | Ware w => context (ware_at h w)
  | _ => Undefined
  end.

(** What the callback is called with at the end of a run. *)
Definition done_args (ro : option value) (node file : value) : list value :=
  match ro with
  | Some err => [err]
  | None => [Null; node; file]
  end.

(** [use] called once for each of [ts], in order. *)
Fixpoint use_each (this : value) (ts : list value) : M unit :=
  match ts with
  | [] => ret tt
  | t :: rest => use this [t] ;;; use_each this rest
  end.

(** Lines 208 and 234 of [stringify]: a Compiler of the receiver's class,
    for the carrier file, the settings and the instance of the receiver, is
    built and asked to compile; what it gives is what is returned. *)
Definition compile_with (this file settings : value) : M value :=
  CustomCompiler <~ own_class this "Compiler" Compiler_class ;;
  p <~ instance this ;;
  compiler <~ new_ CustomCompiler file settings p ;;
  compile_of compiler.

(** Lines 185-186 of [parse]: the carrier file and the Parser built on it. *)
Definition build_parser (this value_ settings : value) : M (loc * built) :=
  file <~ VFile value_ ;;
  parser <~ call_createParser this (File file) settings ;;
  ret (file, parser).

(** The kinds of entries of the log. *)
Definition is_parse_ev (ev : event) : Prop :=
  match ev with EvParse _ _ _ _ => True | _ => False end.
Definition is_stringify_ev (ev : event) : Prop :=
  match ev with EvCompile _ _ _ _ | EvStringify _ _ _ => True | _ => False end.
Definition is_run_ev (ev : event) : Prop :=
  match ev with EvTransform _ _ _ _ | EvCallback _ _ => True | _ => False end.

(** The last function of the pipeline ran [stringify] on [c] from [s2] and
    left [c'] and [s']: either [stringify] returned and its result is the
    [result] of [c'], or it threw a falsy value, which the runner does not
    take for an error, and the [result] is as it was. *)
Definition stringified (c : ctx) (s2 : state) (c' : ctx) (s' : state) : Prop :=
  stringify (ctx_context c) (ctx_tree c) (ctx_file c) (ctx_settings c) s2
  = (Ok (ctx_result c'), s') \/
  (exists e,
     stringify (ctx_context c) (ctx_tree c) (ctx_file c) (ctx_settings c) s2 = (Throw e, s') /\
     truthy e = false /\ ctx_result c' = ctx_result c).



(** What an entry of the log of [process] shows of the carrier file [g],
    the settings [st] and the instance [p]: a Parser and a Compiler are
    built on [g] with [st] and [p], and a registered function is called
    with a tree and [g] after its bound arguments. *)
Definition carries (g : loc) (st : value) (p : loc) (ev : event) : Prop :=
  match ev with
  | EvParse _ f x q | EvCompile _ f x q => f = File g /\ x = st /\ q = Proc p
  | EvStringify _ f x => f = File g /\ x = st
  | EvTransform _ _ a _ => exists bound t, a = bound ++ [t; File g]
  | EvCallback _ _ => True
  end.

(** The Parsers of the host never give a tree: their [parse] rejects or
    throws, with an error that is not a falsy value. *)
Definition parser_never_resolves : Prop :=
  forall impl file settings p h,
    match fst (parser_parse impl file settings p h) with
    | Ok (Resolved _) => False
    | Ok (Rejected e) | Throw e => truthy e = true
    end.

End unified.

(** * A family to run *)

(** A host for the examples: the user's function 7 gives the error object
    [boom] to its continuation, every other one returns; a Parser resolves
    with a new node of type "root"; a Compiler returns "0". *)
Definition boom : value := Obj 99%positive.

Definition demo_host : Host :=
  MkHost
    (fun n this args h =>
       (match n with 7 => Continued boom | _ => Returned end, h))
    (fun impl file settings p h =>
       let l := fresh (dom (objs h)) in
       (Ok (Resolved (Obj l)), set_objs (insert l {[ "type" := Str "root" ]}) h))
    (fun impl file settings p h => (Ok (Str "0"), h)).

(** The family [unified({name: 'md', Parser: 0, Compiler: 1})], its class,
    and three plugins, of which [B] reports an error. *)
Definition md : Family := MkFamily "md" 0 1 Null.
Definition the_class : value := Fn ProcessorCtor.
Definition A : value := Fn (Closure 1).
Definition B : value := Fn (Closure 7).
Definition C : value := Fn (Closure 3).

(** After [Family.parse('# a')]: the carrier file 1 holds the tree, the
    object 1, in its slot. *)
Definition s_parsed : state :=
  snd (parse (host := demo_host) (fam := md) the_class (Str "# a") Undefined init_state).

(** After [Family.use(B)]: the instance 1 with [B] registered. *)
Definition s_used : state := snd (use (fam := md) the_class [B] init_state).

(** After [new Family()]: the instance 1 with nothing registered. *)
Definition s_new : state := snd (new_Processor (fam := md) Undefined init_state).

(** A carrier file 1 with an empty slot and a node 1 of type "root". *)
Definition s_doc : state :=
  MkState (MkHeap ∅ {[ 1%positive := MkVFile "# a" ∅ ]} ∅
                  {[ 1%positive := {[ "type" := Str "root" ]} ]} ∅) ∅ [].

(** [s_used] with a plain object 5 whose [ware] is the registry of the
    instance 1. *)
Definition s_duck : state :=
  with_heap s_used (set_objs (insert 5%positive {[ "ware" := Ware 1%positive ]})
                             (st_heap s_used)).

(** A host whose Parsers reject with [boom]. *)
Definition failing_host : Host :=
  MkHost
    (fun n this args h => (Returned, h))
    (fun impl file settings p h => (Ok (Rejected boom), h))
    (fun impl file settings p h => (Ok (Str "0"), h)).


(** * Properties *)

Section properties.

Context `{host : Host} `{fam : Family}.

(** ** Frame lemmas: what the constructor and the copies leave alone *)

Lemma same_frame_refl h : same_frame h h.
Proof. by repeat split. Qed.

Lemma same_frame_trans h1 h2 h3 :
  same_frame h1 h2 -> same_frame h2 h3 -> same_frame h1 h3.
Proof.
  intros (? & ? & ? & ?) (? & ? & ? & ?). repeat split; congruence.
Qed.

Lemma extend_deep_frame n : forall v h v' h',
  extend_deep n v h = (v', h') -> same_frame h h'.
Proof.
  induction n as [|n IH]; intros v h v' h' E; simpl in E.
  { inversion E; subst. apply same_frame_refl. }
  destruct v; try (inversion E; subst; apply same_frame_refl).
  destruct (objs h !! l) as [o|]; [|inversion E; subst; apply same_frame_refl].
  revert E.
  assert (F : forall kxs : list (string * value), same_frame h
            (snd (foldr (fun kx acc =>
                     let '(m, h1) := acc in
                     let '(x', h2) := extend_deep n (snd kx) h1 in
                     (<[fst kx := x']> m, h2))
                  ((∅ : gmap string value), h) kxs))).
  { induction kxs as [|kx kxs IHk]; simpl; [apply same_frame_refl|].
    destruct (foldr _ _ kxs) as [m h1]; simpl in *.
    destruct (extend_deep n (snd kx) h1) as [x' h2] eqn:E2; simpl.
    eapply same_frame_trans; [exact IHk|]. eapply IH; exact E2. }
  specialize (F (map_to_list o)).
  destruct (foldr _ _ (map_to_list o)) as [o' h1]; simpl in F.
  intros E; inversion E; subst. destruct F as (? & ? & ? & ?). by repeat split.
Qed.

Lemma extend_spec v s :
  exists v' h', extend v s = (Ok v', MkState h' (st_cells s) (st_trace s)) /\
                same_frame (st_heap s) h'.
Proof.
  unfold extend.
  destruct (extend_deep _ v (st_heap s)) as [v' h'] eqn:E.
  exists v', h'. split; [done|]. eapply extend_deep_frame; exact E.
Qed.

(** What the body of the constructor makes of the instance at [l]: a new
    empty registry bound to it and new clones of the two classes.  Other
    instances, other registries and all files are as before. *)
Lemma Processor_init_spec l s :
  exists s' c1 c2 d,
    Processor_init l s = (Ok tt, s') /\
    procs (st_heap s') =
      <[l := MkProcessor (Ware (fresh (dom (wares (st_heap s)))))
                         (Fn (Ctor Parser (Some c1))) (Fn (Ctor Compiler (Some c2))) d]>
        (procs (st_heap s)) /\
    wares (st_heap s') =
      <[fresh (dom (wares (st_heap s))) := MkWare [] (Proc l)]> (wares (st_heap s)) /\
    files (st_heap s') = files (st_heap s) /\
    st_cells s' = st_cells s /\ st_trace s' = st_trace s.
Proof.
  destruct s as [h cells tr].
  unfold Processor_init, new_AttachWare, set_proc, unherit, Parser_class, Compiler_class,
    get_member, bind, ret, get_heap, modify_heap, proc_at, ware_at, proc_field.
  simpl.
  rewrite !lookup_insert_eq. simpl.
  match goal with |- context [truthy ?d] => destruct (truthy d) end.
  - match goal with |- context [extend ?d ?s0] =>
      destruct (extend_spec d s0) as (v' & h' & E & (Hp & Hf & Hw & Hc)); rewrite E end.
    simpl in *.
    do 4 eexists. split; [reflexivity|]. simpl.
    rewrite Hp, Hf, Hw, !insert_insert_eq, !lookup_insert_eq. done.
  - do 4 eexists. split; [reflexivity|]. simpl.
    rewrite !insert_insert_eq. done.
Qed.

Lemma new_Processor_spec processor s :
  exists s' c1 c2 d,
    new_Processor processor s = (Ok (Proc (fresh (dom (procs (st_heap s))))), s') /\
    procs (st_heap s') =
      <[fresh (dom (procs (st_heap s))) :=
          MkProcessor (Ware (fresh (dom (wares (st_heap s)))))
                      (Fn (Ctor Parser (Some c1))) (Fn (Ctor Compiler (Some c2))) d]>
        (procs (st_heap s)) /\
    wares (st_heap s') =
      <[fresh (dom (wares (st_heap s))) := MkWare [] (Proc (fresh (dom (procs (st_heap s)))))]>
        (wares (st_heap s)) /\
    files (st_heap s') = files (st_heap s) /\
    st_cells s' = st_cells s /\ st_trace s' = st_trace s.
Proof.
  unfold new_Processor, bind, ret, get_heap, modify_heap. simpl.
  set (l := fresh (dom (procs (st_heap s)))).
  match goal with |- context [Processor_init l ?s0] =>
    destruct (Processor_init_spec l s0) as (s' & c1 & c2 & d & E & Hp & Hw & Hf & Hc & Ht) end.
  rewrite E. simpl in *. exists s', c1, c2, d.
  rewrite Hp, Hw, Hf, Hc, Ht, insert_insert_eq. done.
Qed.

Lemma fresh_loc_not_in {V} (m : gmap loc V) : m !! fresh (dom m) = None.
Proof. apply not_elem_of_dom, is_fresh. Qed.

Lemma fresh_loc_ne {V} (m : gmap loc V) l : is_Some (m !! l) -> l <> fresh (dom m).
Proof.
  intros [v Hv] ->. rewrite fresh_loc_not_in in Hv. discriminate.
Qed.

Lemma new_Processor_valid processor s r s' :
  new_Processor processor s = (r, s') ->
  r = Ok (Proc (fresh (dom (procs (st_heap s))))) /\
  valid_instance (st_heap s') (fresh (dom (procs (st_heap s)))) /\
  (forall p, is_Some (procs (st_heap s) !! p) ->
             procs (st_heap s') !! p = procs (st_heap s) !! p) /\
  (forall w, is_Some (wares (st_heap s) !! w) ->
             wares (st_heap s') !! w = wares (st_heap s) !! w).
Proof.
  destruct (new_Processor_spec processor s) as (s1 & c1 & c2 & d & E & Hp & Hw & _).
  rewrite E. intros [= <- <-]. split; [done|]. split; [|split].
  - exists (fresh (dom (wares (st_heap s)))), c1, c2, d, [].
    rewrite Hp, Hw, !lookup_insert_eq. done.
  - intros p Hin. rewrite Hp, lookup_insert_ne; [done|].
    apply not_eq_sym, fresh_loc_ne, Hin.
  - intros w Hin. rewrite Hw, lookup_insert_ne; [done|].
    apply not_eq_sym, fresh_loc_ne, Hin.
Qed.

(** [use] on a receiver that is not an instance: a new instance, whose new
    registry holds what this call registered and nothing else. *)
Lemma use_without_instance this arguments s :
  is_Processor this = false ->
  exists s',
    use this arguments s = (Ok (Proc (fresh (dom (procs (st_heap s))))), s') /\
    p_ware (proc_at (st_heap s') (fresh (dom (procs (st_heap s))))) =
      Ware (fresh (dom (wares (st_heap s)))) /\
    wares (st_heap s') =
      <[fresh (dom (wares (st_heap s))) :=
          MkWare (registered arguments) (Proc (fresh (dom (procs (st_heap s)))))]>
        (wares (st_heap s)) /\
    (forall p, is_Some (procs (st_heap s) !! p) ->
               procs (st_heap s') !! p = procs (st_heap s) !! p) /\
    is_Some (procs (st_heap s') !! fresh (dom (procs (st_heap s)))).
Proof.
  intros Hthis. unfold use, instance. rewrite Hthis.
  destruct (new_Processor_spec Undefined s) as (s1 & c1 & c2 & d & E & Hp & Hw & _).
  unfold bind at 1. rewrite E.
  unfold get_member, bind, get_heap, ret, prop, call_use. simpl.
  rewrite Hp, lookup_insert_eq. simpl.
  destruct arguments as [|f bound]; simpl.
  - eexists. split; [reflexivity|]. unfold proc_at. rewrite Hp, Hw, lookup_insert_eq.
    repeat split; try done.
    intros p Hin. rewrite lookup_insert_ne; [done|]. apply not_eq_sym, fresh_loc_ne, Hin.
  - unfold ware_use, modify_heap, ware_at. simpl.
    eexists. split; [reflexivity|]. unfold proc_at. simpl.
    rewrite Hp, Hw, !lookup_insert_eq, insert_insert_eq. simpl.
    repeat split; try done.
    intros p Hin. rewrite lookup_insert_ne; [done|]. apply not_eq_sym, fresh_loc_ne, Hin.
Qed.

(** ** The constructor and [use] *)

(** C1 (as amended).  [use] on the bare family class builds a new instance
    at every call; nothing is kept for reuse.  Two successive calls return
    two instances with two registries, and each registry holds what its own
    call registered and nothing of the other. *)
Theorem use_on_class_builds_each_time a b s :
  exists l1 w1 s1 l2 w2 s2,
    use (Fn ProcessorCtor) a s = (Ok (Proc l1), s1) /\
    use (Fn ProcessorCtor) b s1 = (Ok (Proc l2), s2) /\
    l1 <> l2 /\ w1 <> w2 /\
    p_ware (proc_at (st_heap s2) l1) = Ware w1 /\
    p_ware (proc_at (st_heap s2) l2) = Ware w2 /\
    fns (ware_at (st_heap s2) w1) = registered a /\
    fns (ware_at (st_heap s2) w2) = registered b.
Proof.
  destruct (use_without_instance (Fn ProcessorCtor) a s eq_refl)
    as (s1 & E1 & Hw1 & Hws1 & _ & Hin1).
  destruct (use_without_instance (Fn ProcessorCtor) b s1 eq_refl)
    as (s2 & E2 & Hw2 & Hws2 & Hold2 & _).
  set (l1 := fresh (dom (procs (st_heap s)))) in *.
  set (w1 := fresh (dom (wares (st_heap s)))) in *.
  set (l2 := fresh (dom (procs (st_heap s1)))) in *.
  set (w2 := fresh (dom (wares (st_heap s1)))) in *.
  assert (Hw : w1 <> w2).
  { apply fresh_loc_ne. rewrite Hws1, lookup_insert_eq. by eexists. }
  exists l1, w1, s1, l2, w2, s2. repeat split; try done.
  - by apply fresh_loc_ne.
  - unfold proc_at in *. rewrite Hold2; done.
  - unfold ware_at. rewrite Hws2, lookup_insert_ne, Hws1, lookup_insert_eq; done.
  - unfold ware_at. rewrite Hws2, lookup_insert_eq. done.
Qed.


(** ** Resolving the tree *)

Lemma VFile_eq v s :
  VFile v s = (Ok (fst (VFile_heap v (st_heap s))),
               with_heap s (snd (VFile_heap v (st_heap s)))).
Proof.
  destruct s as [h c t]. unfold VFile, VFile_heap, with_heap.
  destruct v; reflexivity.
Qed.

Lemma bag_set_bag f k b h : bag (set_bag f k b h) f k = b.
Proof.
  unfold bag, set_bag, file_at. simpl. rewrite lookup_insert_eq. simpl.
  rewrite lookup_insert_eq. done.
Qed.

Lemma slot_tree_ensure f h : slot_tree (ensure_space f h) f name = slot_tree h f name.
Proof. unfold slot_tree, ensure_space. rewrite bag_set_bag. done. Qed.

Lemma slot_tree_fill f v h : slot_tree (fill_space f v h) f name = v.
Proof.
  unfold slot_tree, fill_space. rewrite bag_set_bag, lookup_insert_eq. done.
Qed.

Lemma slot_tree_new v h :
  is_VFile v = false ->
  slot_tree (snd (VFile_heap v h)) (fst (VFile_heap v h)) name = Undefined.
Proof.
  intros Hv. unfold slot_tree, bag, file_at.
  destruct v; try discriminate; simpl; rewrite lookup_insert_eq; simpl;
    rewrite lookup_empty; simpl; rewrite lookup_empty; done.
Qed.

(** The whole of [resolve_tree], as one equation. *)
Lemma resolve_tree_eq node file s :
  let h := st_heap s in
  let swap := negb (truthy file) && truthy node && negb (truthy (prop h node "type")) in
  let file1 := if swap then node else file in
  let node1 := if swap then Null else node in
  let f := fst (VFile_heap file1 h) in
  let h0 := snd (VFile_heap file1 h) in
  let t := slot_tree h0 f name in
  resolve_tree node file s =
    if truthy node1 then
      (Ok (node1, File f),
       with_heap s (if truthy t then ensure_space f h0
                    else fill_space f node1 (ensure_space f h0)))
    else if truthy t then (Ok (t, File f), with_heap s (ensure_space f h0))
    else (Throw (Error_ ("Expected node, got " +:+ to_string node1)),
          with_heap s (ensure_space f h0)).
Proof.
  intros h swap file1 node1 f h0 t.
  unfold resolve_tree. unfold bind at 1, get_heap at 1.
  fold h. fold swap. fold file1. fold node1.
  unfold bind at 1. rewrite VFile_eq. fold h. fold f. fold h0.
  unfold namespace, space_get, space_set, bind, modify_heap, get_heap, ret, throw, with_heap.
  simpl. rewrite !bag_set_bag.
  change (default Undefined (bag h0 f name !! "tree")) with t.
  fold (ensure_space f h0).
  destruct (truthy node1) eqn:Hn; simpl.
  - destruct (truthy t) eqn:Ht; simpl; rewrite Hn; simpl; done.
  - destruct (truthy t) eqn:Ht; simpl; [rewrite Ht; done|]. rewrite Hn. done.
Qed.

Lemma slot_of_VFile v h :
  truthy (slot_of h v) = false ->
  truthy (slot_tree (snd (VFile_heap v h)) (fst (VFile_heap v h)) name) = false.
Proof.
  intros Hs. destruct (is_VFile v) eqn:Hv.
  - destruct v; try discriminate. exact Hs.
  - rewrite slot_tree_new; done.
Qed.

Lemma resolve_tree_none node file s :
  no_tree (st_heap s) node file ->
  exists got h', resolve_tree node file s
                 = (Throw (Error_ ("Expected node, got " +:+ got)), with_heap s h').
Proof.
  intros Hno. rewrite resolve_tree_eq.
  destruct Hno as [[Hn Hs] | (Hn & Hf & Hty & Hs)].
  - rewrite Hn, andb_false_r. simpl. rewrite Hn, (slot_of_VFile _ _ Hs). eauto.
  - rewrite Hn, Hf, Hty. simpl. rewrite (slot_of_VFile _ _ Hs). eauto.
Qed.

Lemma own_class_eq this k fallback s :
  own_class this k fallback s =
    (Ok (if truthy (if truthy this then prop (st_heap s) this k else this)
         then (if truthy this then prop (st_heap s) this k else this)
         else fallback), s).
Proof. reflexivity. Qed.

(** C5.  When no tree can be resolved, neither from the tree argument nor
    from the namespace slot of the carrier file, [run] and [stringify] throw
    the error "Expected node, got ..." themselves, whatever the receiver: no
    callback is called and nothing else is logged.  (The file argument of
    [run] is none when it is the callback, the one of [stringify] is none
    when the settings are absent.) *)
Theorem no_tree_is_thrown this node file done settings s :
  (no_tree (st_heap s) node (if is_function file then Null else file) ->
   exists got s', run this node file done s
                  = (Throw (Error_ ("Expected node, got " +:+ got)), s') /\
                  st_trace s' = st_trace s) /\
  (no_tree (st_heap s) node (if absent settings then Null else file) ->
   exists got s', stringify this node file settings s
                  = (Throw (Error_ ("Expected node, got " +:+ got)), s') /\
                  st_trace s' = st_trace s).
Proof.
  split; intros Hno.
  - destruct (resolve_tree_none _ _ _ Hno) as (got & h' & E).
    exists got, (with_heap s h'). unfold run, bind. rewrite E. done.
  - destruct (resolve_tree_none _ _ _ Hno) as (got & h' & E).
    exists got, (with_heap s h'). unfold stringify. unfold bind at 1.
    rewrite own_class_eq. unfold bind. rewrite E. done.
Qed.

(** ** The runner *)

Lemma run_closure_eq n this args s :
  run_closure n this args s =
    (Ok (fst (call_closure n this args (st_heap s))),
     with_heap s (snd (call_closure n this args (st_heap s)))).
Proof.
  unfold run_closure. destruct (call_closure n this args (st_heap s)). reflexivity.
Qed.

(** A call touches neither the log nor the cells. *)
Lemma apply_quiet f this args s r s' :
  apply f this args s = (r, s') ->
  st_trace s' = st_trace s /\ st_cells s' = st_cells s.
Proof.
  unfold apply. destruct f as [| | | |fn| | | | | |]; try (intros [= <- <-]; done).
  destruct fn as [|n| |impl clone].
  - unfold bail. destruct (truthy _); intros [= <- <-]; done.
  - unfold bind. rewrite run_closure_eq.
    destruct (fst (call_closure _ _ _ _)); intros [= <- <-]; done.
  - unfold Processor. destruct (negb (is_Processor this)) eqn:Hthis.
    + destruct (new_Processor_spec (nth 0 args Undefined) s)
        as (s1 & c1 & c2 & d & E & _ & _ & _ & Hc & Ht).
      rewrite E. intros [= <- <-]. done.
    + destruct this; try (intros [= <- <-]; done).
      destruct (Processor_init_spec l s) as (s1 & c1 & c2 & d & E & _ & _ & _ & Hc & Ht).
      unfold bind. rewrite E. intros [= <- <-]. done.
  - intros [= <- <-]; done.
Qed.

Lemma call_done_log done args s r s' :
  call_done done args s = (r, s') ->
  st_trace s' = st_trace s ++ [EvCallback done args] /\
  match done with
  | Done _ => st_cells s' = st_cells s
  | Next k => st_cells s' = <[k := nth 0 args Undefined]> (st_cells s) /\ r = Ok tt
  end.
Proof.
  unfold call_done, bind, log. simpl. destruct done as [f|k].
  - match goal with |- context [apply f Undefined args ?s0] =>
      destruct (apply f Undefined args s0) as [r0 s0'] eqn:E;
      apply apply_quiet in E as [Ht Hc] end.
    simpl in *. destruct r0; intros [= <- <-]; done.
  - unfold resume. simpl. intros [= <- <-]. done.
Qed.

Lemma invoke_log f ctx args s :
  exists c s',
    invoke f ctx args s = (Ok c, s') /\
    st_trace s' = st_trace s ++ [EvTransform f ctx args c] /\
    st_cells s' = st_cells s.
Proof.
  unfold invoke.
  assert (H : exists c s1,
    match f with
    | Fn (Closure n) => run_closure n ctx args
    | _ => r <~ try_ (apply f ctx args) ;;
           ret (match r with Ok _ => Returned | Throw e => Raised e end)
    end s = (Ok c, s1) /\ st_trace s1 = st_trace s /\ st_cells s1 = st_cells s).
  { assert (G : exists c s1,
      (r <~ try_ (apply f ctx args) ;;
       ret (match r with Ok _ => Returned | Throw e => Raised e end)) s = (Ok c, s1) /\
      st_trace s1 = st_trace s /\ st_cells s1 = st_cells s).
    { unfold bind, try_, ret. destruct (apply f ctx args s) as [r s1] eqn:E.
      apply apply_quiet in E. eauto. }
    destruct f as [| | | |fn| | | | | |]; try exact G.
    destruct fn; try exact G. rewrite run_closure_eq. eauto. }
  destruct H as (c & s1 & E & Ht & Hc).
  unfold bind at 1. rewrite E. unfold bind, log, ret. simpl.
  exists c. eexists. split; [reflexivity|]. simpl. rewrite Ht, Hc. done.
Qed.

Lemma ware_loop_log ctx fs args : forall s,
  exists ro evs s',
    ware_loop ctx fs args s = (Ok ro, s') /\
    st_trace s' = st_trace s ++ evs /\
    st_cells s' = st_cells s /\
    run_log ctx args fs evs ro.
Proof.
  induction fs as [|[f bound] rest IH]; intros s; simpl.
  - exists None, [], s. rewrite app_nil_r. repeat split; try done. constructor.
  - destruct (invoke_log f ctx (bound ++ args) s) as (c & s1 & E & Ht & Hc).
    unfold bind. rewrite E. destruct (error_of c) as [e|] eqn:He.
    + exists (Some e), [EvTransform f ctx (bound ++ args) c], s1.
      repeat split; try done. by constructor.
    + destruct (IH s1) as (ro & evs & s' & E' & Ht' & Hc' & Hlog).
      exists ro, (EvTransform f ctx (bound ++ args) c :: evs), s'.
      rewrite E', Ht', Hc', Ht, Hc, <- app_assoc. repeat split; try done.
      by constructor.
Qed.

Lemma get_member_eq v k s :
  absent v = false -> get_member v k s = (Ok (prop (st_heap s) v k), s).
Proof. destruct v; try discriminate; reflexivity. Qed.

Lemma get_member_absent v k s :
  absent v = true -> exists m, get_member v k s = (Throw (TypeError m), s).
Proof. destruct v; try discriminate; eexists; reflexivity. Qed.

Lemma has_fns_eq w s :
  absent w = false ->
  has_fns w s = (Ok match w with
                    | Ware _ => true
                    | _ => truthy (prop (st_heap s) w "fns")
                    end, s).
Proof. destruct w; try discriminate; reflexivity. Qed.

(** What [dispatch] logs: the registry of the receiver is run, then the
    callback is called, once, with the error or with the tree and the file.
    Nothing is logged when the receiver cannot be read. *)
Lemma dispatch_log self node file done s r s' :
  dispatch self node file done s = (r, s') ->
  (exists m, r = Throw (TypeError m) /\ s' = s /\
             forall l, prop (st_heap s) self "ware" <> Ware l) \/
  (exists ro evs,
     run_log (registry_context (st_heap s) self) [node; file]
             (registry_of (st_heap s) self) evs ro /\
     st_trace s' = st_trace s ++ evs ++ [EvCallback (done_or_bail done) (done_args ro node file)] /\
     match done_or_bail done with
     | Done _ => st_cells s' = st_cells s
     | Next k => st_cells s' = <[k := nth 0 (done_args ro node file) Undefined]> (st_cells s)
                 /\ r = Ok tt
     end).
Proof.
  unfold dispatch. set (d := done_or_bail done).
  destruct (absent self) eqn:Hself.
  { destruct (get_member_absent self "ware" s Hself) as [m E].
    unfold bind at 1. rewrite E. intros [= <- <-]. left. exists m.
    repeat split. intros l. destruct self; done. }
  unfold bind at 1. rewrite (get_member_eq _ _ _ Hself).
  unfold registry_of, registry_context.
  set (w := prop (st_heap s) self "ware").
  assert (Hplain : forall r s',
            call_done d [Null; node; file] s = (r, s') ->
            st_trace s' = st_trace s ++ [] ++ [EvCallback d (done_args None node file)] /\
            match d with
            | Done _ => st_cells s' = st_cells s
            | Next k => st_cells s' = <[k := nth 0 (done_args None node file) Undefined]>
                                        (st_cells s) /\ r = Ok tt
            end).
  { intros r0 s0 E. apply call_done_log in E. exact E. }
  destruct (truthy w) eqn:Hw.
  - unfold bind at 1. rewrite has_fns_eq by (destruct w; done).
    destruct w eqn:Ew; try discriminate Hw.
    all: try (match goal with |- context [truthy ?x] => destruct (truthy x) end;
              [ unfold call_run, throw; intros [= <- <-]; left; eexists;
                repeat split; discriminate
              | intros E; right; exists None, []; split; [constructor|];
                apply Hplain; exact E ]).
    (* the registry of an instance *)
    unfold call_run, ware_run. unfold bind at 1, get_heap at 1.
    destruct (ware_loop_log (context (ware_at (st_heap s) l)) (fns (ware_at (st_heap s) l))
                            [node; file] s) as (ro & evs & s1 & E & Ht & Hc & Hlog).
    unfold bind at 1. rewrite E. intros E'. right. exists ro, evs. split; [exact Hlog|].
    assert (E2 : call_done d (done_args ro node file) s1 = (r, s')).
    { destruct ro; exact E'. }
    apply call_done_log in E2 as [Ht2 Hd]. rewrite Ht2, Ht, <- app_assoc. split; [done|].
    destruct d; rewrite <- Hc; exact Hd.
  - unfold bind at 1, ret at 1. intros E. right. exists None, [].
    split; [|apply Hplain; exact E].
    destruct w; try discriminate Hw; constructor.
Qed.

(** [resolve_tree] touches carrier files only. *)
Lemma resolve_tree_frame node file s r s' :
  resolve_tree node file s = (r, s') ->
  procs (st_heap s') = procs (st_heap s) /\ wares (st_heap s') = wares (st_heap s) /\
  objs (st_heap s') = objs (st_heap s) /\
  st_cells s' = st_cells s /\ st_trace s' = st_trace s.
Proof.
  rewrite resolve_tree_eq. cbv zeta.
  match goal with |- context [VFile_heap ?x _] => set (file1 := x) end.
  assert (F : procs (snd (VFile_heap file1 (st_heap s))) = procs (st_heap s) /\
              wares (snd (VFile_heap file1 (st_heap s))) = wares (st_heap s) /\
              objs (snd (VFile_heap file1 (st_heap s))) = objs (st_heap s)).
  { destruct file1; done. }
  destruct F as (Hp & Hw & Ho).
  repeat match goal with |- context [if truthy ?b then _ else _] => destruct (truthy b) end;
    intros [= <- <-];
    unfold with_heap, ensure_space, fill_space, set_bag, set_files;
    cbn [st_heap st_cells st_trace procs wares objs]; rewrite Hp, Hw, Ho; done.
Qed.

Lemma prop_frame h h' v k :
  procs h' = procs h -> objs h' = objs h -> prop h' v k = prop h v k.
Proof. intros Hp Ho. unfold prop. rewrite Hp, Ho. done. Qed.

(** [run], cut at the two places where it can stop. *)
Lemma run_eq this node file done s :
  run this node file done s =
    match resolve_tree node (if is_function file then Null else file) s with
    | (Throw e, s0) => (Throw e, s0)
    | (Ok nf, s0) =>
        match dispatch this (fst nf) (snd nf)
                       (if is_function file then Done file else done) s0 with
        | (Throw e, s') => (Throw e, s')
        | (Ok _, s') => (Ok (fst nf), s')
        end
    end.
Proof.
  unfold run, bind, ret. destruct (resolve_tree _ _ s) as [[nf|e] s0]; [|done].
  destruct (dispatch _ _ _ _ s0) as [[u|e] s']; done.
Qed.

(** C10 (as amended).  [run] on a receiver that is not null or undefined
    and has no [ware], as the bare family class, once the tree is resolved:
    no registered function of any instance is called; the callback is called
    at once with no error, the tree and the file, and that is all the call
    logs; the tree is returned unless the callback throws, and the default
    callback does not. *)
Theorem run_without_registry this node file done s t fl s0 r s' :
  absent this = false ->
  truthy (prop (st_heap s) this "ware") = false ->
  resolve_tree node (if is_function file then Null else file) s = (Ok (t, fl), s0) ->
  run this node file done s = (r, s') ->
  let cb := done_or_bail (if is_function file then Done file else done) in
  st_trace s' = st_trace s ++ [EvCallback cb [Null; t; fl]] /\
  called (st_trace s') = called (st_trace s) /\
  (r = Ok t \/ exists e, r = Throw e /\ call_done cb [Null; t; fl] s0 = (Throw e, s')) /\
  (cb = Done (Fn Bail) -> r = Ok t).
Proof.
  intros Hthis Hware Hres Hrun cb. rewrite run_eq, Hres in Hrun. simpl in Hrun.
  destruct (resolve_tree_frame _ _ _ _ _ Hres) as (Hp & _ & Ho & _ & Ht).
  unfold dispatch in Hrun. fold cb in Hrun. unfold bind at 1 in Hrun.
  rewrite (get_member_eq _ _ _ Hthis), (prop_frame _ _ _ _ Hp Ho), Hware in Hrun.
  unfold bind at 1, ret at 1 in Hrun.
  destruct (call_done cb [Null; t; fl] s0) as [r0 s1] eqn:E.
  pose proof (call_done_log _ _ _ _ _ E) as [Ht1 _].
  assert (Hs : s1 = s') by (destruct r0; simpl in Hrun; congruence). subst s1.
  assert (Hr : r = match r0 with Ok _ => Ok t | Throw e => Throw e end).
  { destruct r0; simpl in Hrun; congruence. }
  rewrite Ht1, Ht. split; [done|]. split.
  { unfold called. rewrite omap_app. simpl. rewrite app_nil_r. done. }
  split.
  - destruct r0 as [u|e]; [left; exact Hr|right; exists e; split; [exact Hr|done]].
  - intros Hcb. rewrite Hcb in E. unfold call_done, bind, log, apply, bail in E.
    simpl in E. injection E as <- _. exact Hr.
Qed.

(** ** What a run leaves alone *)

Section invariant.

(** A property of the store that depends on the carrier files alone and
    that the user's functions keep. *)
Variable I : heap -> Prop.
Hypothesis I_host : forall n this args h, I h -> I (snd (call_closure n this args h)).
Hypothesis I_files : forall h h', files h' = files h -> I h -> I h'.






End invariant.

(** ** The namespace slot *)


(** A tree given with a carrier file: it is the tree, and it goes to the
    slot when the slot is empty. *)
Lemma resolve_tree_given u f s :
  truthy u = true ->
  resolve_tree u (File f) s =
    (Ok (u, File f),
     with_heap s (if truthy (slot_tree (st_heap s) f name) then ensure_space f (st_heap s)
                  else fill_space f u (ensure_space f (st_heap s)))).
Proof. intros Hu. rewrite resolve_tree_eq. simpl. rewrite Hu. done. Qed.

(** No tree given with a carrier file: the tree is the one of the slot. *)
Lemma resolve_tree_omitted u f s :
  truthy u = false ->
  truthy (slot_tree (st_heap s) f name) = true ->
  resolve_tree u (File f) s =
    (Ok (slot_tree (st_heap s) f name, File f), with_heap s (ensure_space f (st_heap s))).
Proof. intros Hu Ht. rewrite resolve_tree_eq. simpl. rewrite Hu, Ht. done. Qed.


(** ** Registration order *)

Lemma use_on_instance p rec w t bound s :
  procs (st_heap s) !! p = Some rec -> p_ware rec = Ware w ->
  use (Proc p) (t :: bound) s =
    (Ok (Proc p),
     with_heap s (set_wares (insert w (MkWare (fns (ware_at (st_heap s) w) ++ [(t, bound)])
                                             (context (ware_at (st_heap s) w))))
                            (st_heap s))).
Proof.
  intros Hp Hw. unfold use, instance, bind, ret, get_member, get_heap, prop, proc_field.
  simpl. rewrite Hp. simpl. rewrite Hw. reflexivity.
Qed.




(** ** Stringify *)

Lemma instance_spec context s :
  exists self s',
    instance context s = (Ok self, s') /\ is_Processor self = true /\
    st_trace s' = st_trace s /\ st_cells s' = st_cells s /\
    files (st_heap s') = files (st_heap s) /\
    (is_Processor context = true -> self = context /\ s' = s).
Proof.
  unfold instance. destruct (is_Processor context) eqn:Hc.
  - exists context, s. done.
  - destruct (new_Processor_spec Undefined s) as (s' & c1 & c2 & d & E & _ & _ & Hf & Hcl & Ht).
    eexists _, s'. split; [exact E|]. done.
Qed.

Lemma own_class_frame this k fallback h h' :
  procs h' = procs h -> objs h' = objs h ->
  (if truthy (if truthy this then prop h' this k else this)
   then (if truthy this then prop h' this k else this) else fallback) =
  (if truthy (if truthy this then prop h this k else this)
   then (if truthy this then prop h this k else this) else fallback).
Proof. intros Hp Ho. rewrite (prop_frame _ _ _ _ Hp Ho). done. Qed.

(** [stringify] is [resolve_tree] on the arguments as reinterpreted, then
    [compile_with] on what it resolved. *)
Lemma stringify_eq this node file settings s :
  stringify this node file settings s =
    match resolve_tree node (if absent settings then Null else file) s with
    | (Throw e, s0) => (Throw e, s0)
    | (Ok nf, s0) =>
        compile_with this (snd nf) (if absent settings then file else settings) s0
    end.
Proof.
  unfold stringify, compile_with. unfold bind at 1. rewrite own_class_eq.
  unfold bind at 1. destruct (resolve_tree _ _ s) as [[nf|e] s0] eqn:E; [|done].
  unfold bind at 3. rewrite own_class_eq.
  destruct (resolve_tree_frame _ _ _ _ _ E) as (Hp & _ & Ho & _).
  rewrite (own_class_frame _ _ _ _ _ Hp Ho). done.
Qed.

(** C3 (as amended).  [stringify(node, file)] with the settings absent:
    the would-be file argument is taken as the settings, and there is no
    file argument.  So a tree with a [type] is compiled on a new, empty
    carrier file, in whose slot it is stored; a first argument that is a
    carrier file is the file, and the tree is the one of its slot; without a
    first argument, or with one that is neither, the call throws "Expected
    node", whatever the would-be file holds.  What the Compiler returns is
    returned as it is. *)
Theorem stringify_without_settings this node file settings s :
  absent settings = true ->
  (truthy node = true -> truthy (prop (st_heap s) node "type") = true ->
   exists g s0,
     files (st_heap s) !! g = None /\
     slot_tree (st_heap s0) g name = node /\
     (forall l, l <> g -> files (st_heap s0) !! l = files (st_heap s) !! l) /\
     stringify this node file settings s = compile_with this (File g) file s0) /\
  (forall g, node = File g ->
     if truthy (slot_tree (st_heap s) g name) then
       stringify this node file settings s =
         compile_with this (File g) file (with_heap s (ensure_space g (st_heap s)))
     else exists got s0,
       stringify this node file settings s
       = (Throw (Error_ ("Expected node, got " +:+ got)), s0)) /\
  ((truthy node = false \/
    (is_VFile node = false /\ truthy (prop (st_heap s) node "type") = false)) ->
   exists got s0,
     stringify this node file settings s = (Throw (Error_ ("Expected node, got " +:+ got)), s0)).
Proof.
  intros Habs. rewrite stringify_eq, Habs, resolve_tree_eq. cbv zeta.
  assert (Hnew : slot_tree (snd (VFile_heap Null (st_heap s)))
                           (fst (VFile_heap Null (st_heap s))) name = Undefined)
    by (by apply slot_tree_new).
  split; [|split].
  - intros Hn Hty. rewrite Hn, Hty. cbn [truthy negb andb]. rewrite Hn, Hnew.
    cbn [truthy].
    exists (fst (VFile_heap Null (st_heap s))).
    eexists (with_heap s (fill_space _ node (ensure_space _ _))).
    split; [apply fresh_loc_not_in|]. split; [apply slot_tree_fill|]. split; [|done].
    intros l Hl. simpl. rewrite !lookup_insert_ne by done. done.
  - intros g ->. simpl. destruct (truthy (slot_tree (st_heap s) g name)); [done|]. eauto.
  - intros [Hn | [Hf Hty]].
    + rewrite Hn. cbn [truthy negb andb]. rewrite Hn, Hnew. eauto.
    + destruct (truthy node) eqn:Hn.
      * rewrite Hty. cbn [truthy negb andb]. rewrite (slot_tree_new node _ Hf). eauto.
      * cbn [truthy negb andb]. rewrite Hn, Hnew. eauto.
Qed.

(** ** Parse *)

Lemma parse_eq this value_ settings s :
  parse this value_ settings s =
    (fb <~ build_parser this value_ settings ;;
     nodePromise <~ parse_of (snd fb) ;;
     match nodePromise with
     | Resolved node =>
         space <~ namespace (fst fb) name ;;
         space_set space "tree" node ;;;
         ret (Resolved node)
     | Rejected e => ret (Rejected e)
     end) s.
Proof.
  unfold parse, build_parser, bind, ret.
  destruct (VFile value_ s) as [[f|e] s0]; [|done].
  destruct (call_createParser this (File f) settings s0) as [[b|e] s1]; done.
Qed.

Lemma createParser_built this f settings s b s1 :
  call_createParser this (File f) settings s = (Ok b, s1) ->
  b_file b = File f /\ b_settings b = settings /\
  st_trace s1 = st_trace s /\ st_cells s1 = st_cells s.
Proof.
  assert (G : forall r,
    createParser this (File f) settings s = (r, s1) ->
    r = Ok b -> b_file b = File f /\ b_settings b = settings /\
                st_trace s1 = st_trace s /\ st_cells s1 = st_cells s).
  { intros r. unfold createParser. unfold bind at 1. rewrite VFile_eq. simpl.
    unfold bind at 1. rewrite own_class_eq. unfold bind at 1.
    match goal with |- context [instance this ?sy] =>
      destruct (instance_spec this sy) as (self & s3 & Ei & _ & Ht & Hc & _) end.
    rewrite Ei. unfold new_.
    match goal with |- context [match ?C with Fn _ => _ | _ => _ end] =>
      destruct C as [| | | |fn| | | | | |]; try (intros [= <- <-]; discriminate);
      destruct fn; intros [= <- <-]; try discriminate end.
    intros [= <-]. done. }
  unfold call_createParser. intros E.
  destruct this as [| | | |fn| | | | | |]; try discriminate E.
  - destruct fn; try discriminate E. eapply G; [exact E|done].
  - eapply G; [exact E|done].
Qed.

(** C8.  Once the Parser is built on the carrier file, [parse] is what its
    [parse()] makes of it.  When it resolves with a tree, the tree is put in
    the namespace slot of the carrier file, in place of what the slot held,
    and [parse] resolves with it; when it rejects, [parse] rejects with the
    same value and writes nothing; when it throws, so does [parse]. *)
Theorem parse_attaches_tree this value_ settings s f b s1 :
  build_parser this value_ settings s = (Ok (f, b), s1) ->
  b_file b = File f /\ b_settings b = settings /\
  let ev := EvParse (b_impl b) (b_file b) (b_settings b) (b_processor b) in
  match parser_parse (b_impl b) (b_file b) (b_settings b) (b_processor b) (st_heap s1) with
  | (Ok (Resolved node), h2) =>
      parse this value_ settings s =
        (Ok (Resolved node),
         MkState (fill_space f node (ensure_space f h2)) (st_cells s1) (st_trace s1 ++ [ev])) /\
      slot_tree (fill_space f node (ensure_space f h2)) f name = node
  | (Ok (Rejected e), h2) =>
      parse this value_ settings s =
        (Ok (Rejected e), MkState h2 (st_cells s1) (st_trace s1 ++ [ev]))
  | (Throw e, h2) =>
      parse this value_ settings s = (Throw e, MkState h2 (st_cells s1) (st_trace s1 ++ [ev]))
  end.
Proof.
  intros Hb.
  assert (Hparse : parse this value_ settings s =
    (nodePromise <~ parse_of b ;;
     match nodePromise with
     | Resolved node =>
         space <~ namespace f name ;; space_set space "tree" node ;;; ret (Resolved node)
     | Rejected e => ret (Rejected e)
     end) s1).
  { rewrite parse_eq. unfold bind at 1. rewrite Hb. reflexivity. }
  rewrite Hparse. clear Hparse.
  unfold build_parser in Hb. unfold bind at 1 in Hb. rewrite VFile_eq in Hb.
  unfold bind at 1 in Hb.
  destruct (call_createParser _ _ _ _) as [[b0|e] sx] eqn:Ec; [|discriminate Hb].
  injection Hb as <- <- <-.
  destruct (createParser_built _ _ _ _ _ _ Ec) as (Hf & Hs & _).
  split; [exact Hf|]. split; [exact Hs|].
  unfold parse_of, namespace, space_set, bind, modify_heap, ret, log. simpl.
  destruct (parser_parse _ _ _ _ (st_heap sx)) as [[[node|e]|e] h2] eqn:Eh; simpl.
  - split; [reflexivity|]. apply slot_tree_fill.
  - reflexivity.
  - reflexivity.
Qed.

(** ** The pipeline *)

Lemma createParser_quiet this f settings s r s1 :
  call_createParser this (File f) settings s = (r, s1) ->
  st_trace s1 = st_trace s /\ st_cells s1 = st_cells s.
Proof.
  assert (G : createParser this (File f) settings s = (r, s1) ->
              st_trace s1 = st_trace s /\ st_cells s1 = st_cells s).
  { unfold createParser. unfold bind at 1. rewrite VFile_eq. simpl.
    unfold bind at 1. rewrite own_class_eq. unfold bind at 1.
    match goal with |- context [instance this ?sy] =>
      destruct (instance_spec this sy) as (self & s3 & Ei & _ & Ht & Hc & _) end.
    rewrite Ei. unfold new_.
    match goal with |- context [match ?C with Fn _ => _ | _ => _ end] =>
      destruct C as [| | | |fn| | | | | |]; try (intros [= <- <-]; done);
      destruct fn; intros [= <- <-]; done end. }
  unfold call_createParser.
  destruct this as [| | | |fn| | | | | |]; try (intros [= <- <-]; done); [|exact G].
  destruct fn; try (intros [= <- <-]; done). exact G.
Qed.

Lemma parse_trace this value_ settings s r s' :
  parse this value_ settings s = (r, s') ->
  exists evs, st_trace s' = st_trace s ++ evs /\ Forall is_parse_ev evs /\
              st_cells s' = st_cells s.
Proof.
  rewrite parse_eq. unfold build_parser. unfold bind at 1, bind at 1. rewrite VFile_eq.
  unfold bind at 1.
  destruct (call_createParser _ _ _ _) as [[b|e] s1] eqn:Ec;
    apply createParser_quiet in Ec as [Ht Hc]; simpl in Ht, Hc.
  - unfold ret at 1. unfold parse_of, namespace, space_set, bind, modify_heap, ret, log.
    simpl. destruct (parser_parse _ _ _ _ (st_heap s1)) as [[[node|e]|e] h2]; simpl;
      intros [= <- <-]; simpl; rewrite Ht, Hc;
      (eexists; split; [reflexivity|]; split; [repeat constructor|done]).
  - intros [= <- <-]. exists []. rewrite app_nil_r. done.
Qed.

Lemma compile_with_trace this file settings s r s' :
  compile_with this file settings s = (r, s') ->
  exists evs, st_trace s' = st_trace s ++ evs /\ Forall is_stringify_ev evs /\
              st_cells s' = st_cells s.
Proof.
  unfold compile_with. unfold bind at 1. rewrite own_class_eq. unfold bind at 1.
  destruct (instance_spec this s) as (self & s1 & Ei & _ & Ht & Hc & _). rewrite Ei.
  unfold new_.
  match goal with |- context [match ?C with Fn _ => _ | _ => _ end] =>
    destruct C as [| | | |fn| | | | | |];
      try (intros [= <- <-]; exists []; rewrite app_nil_r; done);
    destruct fn; try (intros [= <- <-]; exists []; rewrite app_nil_r; done) end.
  unfold bind, ret, compile_of, bind, log. simpl.
  destruct (compiler_compile _ _ _ _ _) as [r0 h2]. intros [= <- <-]. simpl.
  rewrite Ht, Hc. eexists; split; [reflexivity|]; split; [repeat constructor|done].
Qed.

Lemma stringify_trace this node file settings s r s' :
  stringify this node file settings s = (r, s') ->
  exists evs, st_trace s' = st_trace s ++ evs /\ Forall is_stringify_ev evs /\
              st_cells s' = st_cells s.
Proof.
  rewrite stringify_eq.
  destruct (resolve_tree _ _ s) as [[nf|e] s0] eqn:E;
    apply resolve_tree_frame in E as (_ & _ & _ & Hc & Ht).
  - intros E. apply compile_with_trace in E as (evs & Ht' & HF & Hc').
    exists evs. rewrite Ht', Hc', Ht, Hc. done.
  - intros [= <- <-]. exists []. rewrite app_nil_r. done.
Qed.

Lemma run_log_error ctx args fs evs ro :
  run_log ctx args fs evs ro ->
  forall f x a c e, EvTransform f x a c ∈ evs -> error_of c = Some e -> ro = Some e.
Proof.
  induction 1 as [|f0 bound rest c0 evs ro Hc0 Hlog IH|f0 bound rest c0 e0 Hc0];
    intros f x a c e Hin He.
  - by apply not_elem_of_nil in Hin.
  - apply elem_of_cons in Hin as [[= -> -> -> ->]|Hin]; [congruence|]. eapply IH; eauto.
  - apply list_elem_of_singleton in Hin as [= -> -> -> ->]. congruence.
Qed.

Lemma run_log_events ctx args fs evs ro :
  run_log ctx args fs evs ro -> Forall is_run_ev evs.
Proof. induction 1; repeat constructor; done. Qed.

Lemma pipeline_parse_facts c s r s1 :
  pipeline_parse c s = (r, s1) ->
  (exists evs, st_trace s1 = st_trace s ++ evs /\ Forall is_parse_ev evs) /\
  match r with
  | Ok (err, c') =>
      ctx_context c' = ctx_context c /\ ctx_settings c' = ctx_settings c /\
      ctx_file c' = ctx_file c /\ ctx_result c' = ctx_result c /\
      (truthy (ctx_tree c) = true -> ctx_tree c' = ctx_tree c)
  | Throw _ => True
  end.
Proof.
  unfold pipeline_parse. destruct (truthy (ctx_tree c)) eqn:Htree.
  - intros [= <- <-]. split; [exists []; rewrite app_nil_r; done|done].
  - unfold bind.
    destruct (parse _ _ _ s) as [[[tree|e]|e] s0] eqn:E;
      apply parse_trace in E as (evs & Ht & HF & _);
      intros [= <- <-]; (split; [eauto|done]).
Qed.

(** What the second function of the pipeline logs, and what it ends with
    when a registered function reported an error. *)
Lemma pipeline_run_facts c s r s1 :
  is_function (ctx_file c) = false ->
  pipeline_run c s = (r, s1) ->
  exists evs,
    st_trace s1 = st_trace s ++ evs /\ Forall is_run_ev evs /\
    (forall f x a cpl e,
       EvTransform f x a cpl ∈ evs -> error_of cpl = Some e -> r = Ok (e, c)) /\
    match r with Ok (_, c') => c' = c | Throw _ => True end.
Proof.
  intros Hfile. unfold pipeline_run. set (k := fresh (dom (st_cells s))).
  unfold bind. rewrite run_eq, Hfile.
  destruct (resolve_tree _ _ s) as [[nf|e] s0] eqn:E;
    apply resolve_tree_frame in E as (_ & _ & _ & Hc & Ht).
  2:{ intros [= <- <-]. exists []. rewrite app_nil_r, Ht.
      repeat split; try done. intros ? ? ? ? ? Hin. by apply not_elem_of_nil in Hin. }
  destruct (dispatch _ _ _ _ s0) as [r0 s2] eqn:D.
  apply dispatch_log in D as [(m & -> & -> & _) | (ro & evs & Hlog & Ht2 & Hcell)].
  { intros [= <- <-]. exists []. rewrite app_nil_r, Ht.
    repeat split; try done. intros ? ? ? ? ? Hin. by apply not_elem_of_nil in Hin. }
  simpl in Hcell. destruct Hcell as [Hcell ->]. intros [= <- <-].
  eexists. split; [rewrite Ht2, Ht; reflexivity|]. split.
  { apply Forall_app. split; [eapply run_log_events; eauto|repeat constructor]. }
  split; [|done].
  intros f x a cpl e Hin He. rewrite Hcell, lookup_insert_eq. simpl.
  apply elem_of_app in Hin as [Hin|Hin].
  - rewrite (run_log_error _ _ _ _ _ Hlog _ _ _ _ _ Hin He). done.
  - apply list_elem_of_singleton in Hin. discriminate Hin.
Qed.

Lemma pipeline_stringify_facts c s r s1 :
  pipeline_stringify c s = (r, s1) ->
  (exists evs, st_trace s1 = st_trace s ++ evs /\ Forall is_stringify_ev evs) /\
  match r with
  | Ok (err, c') =>
      err = Null /\ ctx_file c' = ctx_file c /\
      exists s0,
        stringify (ctx_context c) (ctx_tree c) (ctx_file c) (ctx_settings c) s0
        = (Ok (ctx_result c'), s1)
  | Throw e =>
      exists s0,
        stringify (ctx_context c) (ctx_tree c) (ctx_file c) (ctx_settings c) s0
        = (Throw e, s1)
  end.
Proof.
  unfold pipeline_stringify, bind, ret, log.
  match goal with |- context [stringify _ _ _ _ ?s0] =>
    destruct (stringify (ctx_context c) (ctx_tree c) (ctx_file c) (ctx_settings c) s0)
      as [[v|e] sx] eqn:E end;
    pose proof (stringify_trace _ _ _ _ _ _ _ E) as (evs & Ht & HF & _);
    simpl in Ht; intros [= <- <-];
    (split; [exists (EvStringify (ctx_tree c) (ctx_file c) (ctx_settings c) :: evs);
             rewrite Ht, <- app_assoc; split; [done|by constructor]
            |simpl; eauto]).
Qed.

Lemma error_of_truthy c e : error_of c = Some e -> truthy e = true.
Proof.
  destruct c as [|err|err]; simpl; try discriminate;
    destruct (truthy err) eqn:H; intros [= <-]; exact H.
Qed.

Lemma not_in_parse_evs evs f x a cpl :
  Forall is_parse_ev evs -> EvTransform f x a cpl ∈ evs -> False.
Proof. intros HF Hin. rewrite Forall_forall in HF. exact (HF _ Hin). Qed.

Lemma not_in_compile_evs evs f x a cpl :
  Forall is_stringify_ev evs -> EvTransform f x a cpl ∈ evs -> False.
Proof. intros HF Hin. rewrite Forall_forall in HF. exact (HF _ Hin). Qed.

Lemma parse_evs_no_compile evs :
  Forall is_parse_ev evs -> Forall (fun ev => ~ is_stringify_ev ev) evs.
Proof. intros H. eapply Forall_impl; [exact H|]. intros []; simpl; tauto. Qed.

Lemma run_evs_no_compile evs :
  Forall is_run_ev evs -> Forall (fun ev => ~ is_stringify_ev ev) evs.
Proof. intros H. eapply Forall_impl; [exact H|]. intros []; simpl; tauto. Qed.

(** The pipeline from its last function on. *)
Lemma pipeline_tail3 c s r s' :
  steps_run [pipeline_stringify] c s = (r, s') ->
  exists err c',
    r = Ok (err, c') /\ ctx_file c' = ctx_file c /\
    (exists evs, st_trace s' = st_trace s ++ evs /\ Forall is_stringify_ev evs) /\
    (truthy err = false -> exists s2, stringified c s2 c' s').
Proof.
  simpl. unfold bind, try_, ret.
  destruct (pipeline_stringify c s) as [r3 s3] eqn:E3.
  apply pipeline_stringify_facts in E3 as [Hev H3].
  destruct r3 as [[err3 c3]|e3].
  - destruct H3 as (-> & Hf & s0 & Hs). simpl. intros [= <- <-].
    exists Null, c3. repeat split; try done. intros _. exists s0. by left.
  - destruct H3 as (s0 & Hs). destruct (truthy e3) eqn:He3; intros [= <- <-].
    + exists e3, c. repeat split; try done. congruence.
    + exists Null, c. repeat split; try done. intros _. exists s0. right. exists e3. done.
Qed.

(** The pipeline from its second function on. *)
Lemma pipeline_tail2 c s r s' :
  is_function (ctx_file c) = false ->
  steps_run [pipeline_run; pipeline_stringify] c s = (r, s') ->
  exists err c',
    r = Ok (err, c') /\ ctx_file c' = ctx_file c /\
    exists evs, st_trace s' = st_trace s ++ evs /\
      Forall (fun ev => ~ is_parse_ev ev) evs /\
      (forall f x a cpl e,
         EvTransform f x a cpl ∈ evs -> error_of cpl = Some e ->
         err = e /\ Forall (fun ev => ~ is_stringify_ev ev) evs) /\
      (truthy err = false -> exists s2, stringified c s2 c' s').
Proof.
  intros Hfile. cbn [steps_run]. unfold bind at 1, try_ at 1.
  destruct (pipeline_run c s) as [r2 s2] eqn:E2.
  apply (pipeline_run_facts _ _ _ _ Hfile) in E2 as (evs2 & Ht2 & HF2 & Herr2 & Hc2).
  assert (Hnp2 : Forall (fun ev => ~ is_parse_ev ev) evs2).
  { eapply Forall_impl; [exact HF2|]. intros []; simpl; tauto. }
  assert (Hcont : forall r s', steps_run [pipeline_stringify] c s2 = (r, s') ->
            (forall f x a cpl e, EvTransform f x a cpl ∈ evs2 -> error_of cpl = Some e -> False) ->
            exists err c',
              r = Ok (err, c') /\ ctx_file c' = ctx_file c /\
              exists evs, st_trace s' = st_trace s ++ evs /\
                Forall (fun ev => ~ is_parse_ev ev) evs /\
                (forall f x a cpl e,
                   EvTransform f x a cpl ∈ evs -> error_of cpl = Some e ->
                   err = e /\ Forall (fun ev => ~ is_stringify_ev ev) evs) /\
                (truthy err = false -> exists s2, stringified c s2 c' s')).
  { intros r0 s0 E Hno.
    apply pipeline_tail3 in E as (err & c' & -> & Hf & (evs3 & Ht3 & HF3) & Hs).
    exists err, c'. repeat split; try done. exists (evs2 ++ evs3).
    rewrite Ht3, Ht2, <- app_assoc. split; [done|]. split.
    { apply Forall_app. split; [done|]. eapply Forall_impl; [exact HF3|].
      intros []; simpl; tauto. }
    split; [|eauto].
    intros f x a cpl e Hin He. exfalso. apply elem_of_app in Hin as [Hin|Hin].
    - eapply Hno; eauto.
    - eapply not_in_compile_evs; eauto. }
  destruct r2 as [[err2 c2]|e2]; simpl.
  - subst c2. destruct (truthy err2) eqn:He2.
    + intros [= <- <-]. exists err2, c. split; [done|]. split; [done|].
      exists evs2. split; [done|]. split; [done|]. split.
      * intros f x a cpl e Hin He. pose proof (Herr2 _ _ _ _ _ Hin He) as [= ->].
        split; [done|]. by apply run_evs_no_compile.
      * congruence.
    + intros E. apply (Hcont _ _ E).
      intros f x a cpl e Hin He. pose proof (Herr2 _ _ _ _ _ Hin He) as [= ->].
      apply error_of_truthy in He. congruence.
  - destruct (truthy e2) eqn:He2.
    + intros [= <- <-]. exists e2, c. split; [done|]. split; [done|].
      exists evs2. split; [done|]. split; [done|]. split.
      * intros f x a cpl e Hin He. by pose proof (Herr2 _ _ _ _ _ Hin He).
      * congruence.
    + intros E. apply (Hcont _ _ E).
      intros f x a cpl e Hin He. by pose proof (Herr2 _ _ _ _ _ Hin He).
Qed.

(** The whole pipeline: it always ends, with an error or without; a
    registered function that reports an error makes it the error of the
    pipeline, and then no Compiler was asked to compile; without error, the
    result is the one of [stringify]. *)
Lemma pipeline_outcome c s r s' :
  is_function (ctx_file c) = false ->
  steps_run pipeline c s = (r, s') ->
  exists err c',
    r = Ok (err, c') /\ ctx_file c' = ctx_file c /\
    exists evs, st_trace s' = st_trace s ++ evs /\
      (forall f x a cpl e,
         EvTransform f x a cpl ∈ evs -> error_of cpl = Some e ->
         err = e /\ Forall (fun ev => ~ is_stringify_ev ev) evs) /\
      (truthy err = false ->
       exists c1 s2,
         ctx_context c1 = ctx_context c /\ ctx_settings c1 = ctx_settings c /\
         ctx_file c1 = ctx_file c /\ ctx_result c1 = ctx_result c /\
         (truthy (ctx_tree c) = true -> ctx_tree c1 = ctx_tree c) /\
         stringified c1 s2 c' s').
Proof.
  intros Hfile. unfold pipeline. cbn [steps_run]. unfold bind at 1, try_ at 1.
  destruct (pipeline_parse c s) as [r1 s1] eqn:E1.
  apply pipeline_parse_facts in E1 as [(evs1 & Ht1 & HF1) H1].
  assert (Hcont : forall c1 r s',
            ctx_context c1 = ctx_context c -> ctx_settings c1 = ctx_settings c ->
            ctx_file c1 = ctx_file c -> ctx_result c1 = ctx_result c ->
            (truthy (ctx_tree c) = true -> ctx_tree c1 = ctx_tree c) ->
            steps_run [pipeline_run; pipeline_stringify] c1 s1 = (r, s') ->
            exists err c',
              r = Ok (err, c') /\ ctx_file c' = ctx_file c /\
              exists evs, st_trace s' = st_trace s ++ evs /\
                (forall f x a cpl e,
                   EvTransform f x a cpl ∈ evs -> error_of cpl = Some e ->
                   err = e /\ Forall (fun ev => ~ is_stringify_ev ev) evs) /\
                (truthy err = false ->
                 exists c1 s2,
                   ctx_context c1 = ctx_context c /\ ctx_settings c1 = ctx_settings c /\
                   ctx_file c1 = ctx_file c /\ ctx_result c1 = ctx_result c /\
                   (truthy (ctx_tree c) = true -> ctx_tree c1 = ctx_tree c) /\
                   stringified c1 s2 c' s')).
  { intros c1 r0 s0 Ha Hb Hc Hd He E.
    apply pipeline_tail2 in E as (err & c' & -> & Hf & evs & Ht & Hnp & Herr & Hs);
      [|by rewrite Hc].
    exists err, c'. split; [done|]. split; [congruence|].
    exists (evs1 ++ evs). rewrite Ht, Ht1, <- app_assoc. split; [done|]. split.
    - intros f x a cpl e Hin Herr'. apply elem_of_app in Hin as [Hin|Hin].
      + exfalso. eapply not_in_parse_evs; eauto.
      + destruct (Herr _ _ _ _ _ Hin Herr') as [-> Hnc]. split; [done|].
        apply Forall_app. split; [by apply parse_evs_no_compile|done].
    - intros Hfalsy. destruct (Hs Hfalsy) as [s2 Hstr]. exists c1, s2. done. }
  assert (Hstop : forall err,
            truthy err = true ->
            exists err0 c',
              (Ok (err, c) : outcome (value * ctx)) = Ok (err0, c') /\
              ctx_file c' = ctx_file c /\
              exists evs, st_trace s1 = st_trace s ++ evs /\
                (forall f x a cpl e,
                   EvTransform f x a cpl ∈ evs -> error_of cpl = Some e ->
                   err0 = e /\ Forall (fun ev => ~ is_stringify_ev ev) evs) /\
                (truthy err0 = false ->
                 exists c1 s2,
                   ctx_context c1 = ctx_context c /\ ctx_settings c1 = ctx_settings c /\
                   ctx_file c1 = ctx_file c /\ ctx_result c1 = ctx_result c /\
                   (truthy (ctx_tree c) = true -> ctx_tree c1 = ctx_tree c) /\
                   stringified c1 s2 c' s1)).
  { intros err He. exists err, c. split; [done|]. split; [done|].
    exists evs1. split; [done|]. split.
    - intros f x a cpl e Hin _. exfalso. eapply not_in_parse_evs; eauto.
    - congruence. }
  destruct r1 as [[err1 c1]|e1]; simpl.
  - destruct H1 as (Ha & Hb & Hc & Hd & He). destruct (truthy err1) eqn:Herr1.
    + intros [= <- <-]. exists err1, c1. split; [done|]. split; [done|].
      exists evs1. split; [done|]. split.
      * intros f x a cpl e Hin _. exfalso. eapply not_in_parse_evs; eauto.
      * congruence.
    + intros E. eapply Hcont; eauto.
  - destruct (truthy e1) eqn:He1.
    + intros [= <- <-]. by apply Hstop.
    + intros E. eapply Hcont; eauto.
Qed.

(** [process] up to the pipeline: the instance, the settings and the
    object [opts]. *)
Lemma process_eq this value_ settings s :
  exists opts sa,
    is_Processor (ctx_context opts) = true /\
    st_trace sa = st_trace s /\
    ctx_result opts = Undefined /\
    ctx_tree opts = (if is_string value_ || is_VFile value_ then Undefined else value_) /\
    (if is_string value_ || is_VFile value_
     then exists g, ctx_file opts = File g /\
                    (value_ = File g \/
                     exists t, value_ = Str t /\ files (st_heap s) !! g = None)
     else ctx_file opts = Undefined) /\
    process this value_ settings s =
      match steps_run pipeline opts sa with
      | (Ok (err, res), s') =>
          (Ok (if truthy err then Rejected err
               else Resolved (MkProcessed (ctx_file res) (ctx_result res))), s')
      | (Throw e, s') => (Throw e, s')
      end.
Proof.
  unfold process. unfold bind at 1.
  destruct (instance_spec this s) as (self & s1 & Ei & Hself & Ht1 & _ & Hf1 & _).
  rewrite Ei. unfold bind at 1.
  assert (Hset : exists st s2,
            (if truthy settings then ret settings else l <~ alloc_obj ∅ ;; ret (Obj l)) s1
            = (Ok st, s2) /\ st_trace s2 = st_trace s1 /\
            files (st_heap s2) = files (st_heap s1)).
  { destruct (truthy settings); [exists settings, s1; done|].
    unfold alloc_obj, bind, get_heap, modify_heap, ret. simpl. eauto. }
  destruct Hset as (st & s2 & Es & Ht2 & Hf2). rewrite Es. unfold bind at 1.
  destruct (is_string value_ || is_VFile value_) eqn:Hv.
  - unfold bind at 1. rewrite VFile_eq. unfold ret at 1.
    exists (MkCtx self st (File (fst (VFile_heap value_ (st_heap s2)))) Undefined Undefined),
           (with_heap s2 (snd (VFile_heap value_ (st_heap s2)))).
    split; [exact Hself|]. split; [simpl; congruence|]. split; [done|]. split; [done|].
    split.
    { eexists. split; [reflexivity|].
      destruct value_; try discriminate Hv; simpl.
      - right. eexists. split; [reflexivity|]. rewrite Hf2, Hf1. apply fresh_loc_not_in.
      - by left. }
    unfold bind.
    destruct (steps_run pipeline _ _) as [[[err res]|e] s'];
      [destruct (truthy err)|]; reflexivity.
  - unfold ret at 1.
    exists (MkCtx self st Undefined value_ Undefined), s2.
    split; [exact Hself|]. split; [congruence|]. split; [done|]. split; [done|].
    split; [done|]. unfold bind.
    destruct (steps_run pipeline _ _) as [[[err res]|e] s'];
      [destruct (truthy err)|]; reflexivity.
Qed.

(** ** Process *)


(** C7.  Whatever [process] logs, if among it a registered function ended
    with an error [e] (it gave [e] to its continuation, or threw it), the
    promise of [process] is rejected with [e] itself, and the log shows
    neither the pipeline reaching its last function nor a Compiler asked to
    compile: the stringify step did not run, and there is no result. *)
Theorem transformer_error_rejects this value_ settings s r s' evs f x a cpl e :
  process this value_ settings s = (r, s') ->
  st_trace s' = st_trace s ++ evs ->
  EvTransform f x a cpl ∈ evs ->
  error_of cpl = Some e ->
  r = Ok (Rejected e) /\ Forall (fun ev => ~ is_stringify_ev ev) evs.
Proof.
  intros Hproc Htrace Hin Herr.
  destruct (process_eq this value_ settings s)
    as (opts & sa & Hself & Hta & Hres & Htree & Hfile & E).
  assert (Hfn : is_function (ctx_file opts) = false).
  { destruct (is_string value_ || is_VFile value_).
    - destruct Hfile as (g & -> & _). done.
    - rewrite Hfile. done. }
  rewrite E in Hproc.
  destruct (steps_run pipeline opts sa) as [r0 s0] eqn:Ep.
  destruct (pipeline_outcome _ _ _ _ Hfn Ep) as (err & c' & -> & _ & evs' & Ht & Hev & _).
  assert (s0 = s') by (destruct (truthy err); congruence). subst s0.
  rewrite Hta, Htrace in Ht. apply app_inv_head in Ht. subst evs'.
  destruct (Hev _ _ _ _ _ Hin Herr) as [-> Hnc]. split; [|exact Hnc].
  rewrite (error_of_truthy _ _ Herr) in Hproc. congruence.
Qed.

(** * Further properties of the code *)

(** ** Instances are isolated *)

(** What a deep copy gives, and the objects it leaves, depend on the
    objects of the store alone. *)
Lemma extend_deep_objs n : forall v ha hb,
  objs ha = objs hb ->
  fst (extend_deep n v ha) = fst (extend_deep n v hb) /\
  objs (snd (extend_deep n v ha)) = objs (snd (extend_deep n v hb)).
Proof.
  induction n as [|n IH]; intros v ha hb Ho; simpl; [done|].
  destruct v; try done. rewrite Ho. destruct (objs hb !! l) as [o|]; [|done].
  assert (F : forall kxs : list (string * value),
            fst (foldr (fun kx acc =>
                   let '(m, h1) := acc in
                   let '(x', h2) := extend_deep n (snd kx) h1 in
                   (<[fst kx := x']> m, h2)) ((∅ : gmap string value), ha) kxs)
            = fst (foldr (fun kx acc =>
                   let '(m, h1) := acc in
                   let '(x', h2) := extend_deep n (snd kx) h1 in
                   (<[fst kx := x']> m, h2)) ((∅ : gmap string value), hb) kxs) /\
            objs (snd (foldr (fun kx acc =>
                   let '(m, h1) := acc in
                   let '(x', h2) := extend_deep n (snd kx) h1 in
                   (<[fst kx := x']> m, h2)) ((∅ : gmap string value), ha) kxs))
            = objs (snd (foldr (fun kx acc =>
                   let '(m, h1) := acc in
                   let '(x', h2) := extend_deep n (snd kx) h1 in
                   (<[fst kx := x']> m, h2)) ((∅ : gmap string value), hb) kxs))).
  { induction kxs as [|kx kxs IHk]; simpl; [done|].
    destruct (foldr _ (∅, ha) kxs) as [ma h1a]. destruct (foldr _ (∅, hb) kxs) as [mb h1b].
    cbn [fst snd] in IHk. destruct IHk as [-> Hk].
    destruct (IH (snd kx) h1a h1b Hk) as [H1 H2].
    destruct (extend_deep n (snd kx) h1a) as [xa h2a].
    destruct (extend_deep n (snd kx) h1b) as [xb h2b].
    cbn [fst snd] in *. subst. done. }
  specialize (F (map_to_list o)).
  destruct (foldr _ (∅, ha) (map_to_list o)) as [oa h1a].
  destruct (foldr _ (∅, hb) (map_to_list o)) as [ob h1b].
  cbn [fst snd] in F. destruct F as [-> Hk]. cbn [fst snd objs set_objs]. rewrite Hk. done.
Qed.

#[local] Arguments extend_deep : simpl never.

Lemma extend_eq v s :
  extend v s =
    (Ok (fst (extend_deep (S (size (objs (st_heap s)))) v (st_heap s))),
     with_heap s (snd (extend_deep (S (size (objs (st_heap s)))) v (st_heap s)))).
Proof. unfold extend. destruct (extend_deep _ v (st_heap s)). reflexivity. Qed.

(** The constructor body once more, with the clones and the data it makes
    spelled out. *)
Lemma Processor_init_fields l s :
  let h := st_heap s in
  let c1 := fresh (classes h) in
  let c2 := fresh ({[c1]} ∪ classes h) in
  let d := p_data (proc_at h l) in
  exists s' d',
    Processor_init l s = (Ok tt, s') /\
    procs (st_heap s') =
      <[l := MkProcessor (Ware (fresh (dom (wares h))))
                         (Fn (Ctor Parser (Some c1))) (Fn (Ctor Compiler (Some c2))) d']>
        (procs h) /\
    wares (st_heap s') = <[fresh (dom (wares h)) := MkWare [] (Proc l)]> (wares h) /\
    files (st_heap s') = files h /\
    classes (st_heap s') = {[c2]} ∪ ({[c1]} ∪ classes h) /\
    (if truthy d
     then d' = fst (extend_deep (S (size (objs h))) d h) /\
          objs (st_heap s') = objs (snd (extend_deep (S (size (objs h))) d h))
     else d' = d /\ objs (st_heap s') = objs h).
Proof.
  destruct s as [h cells tr]. cbv zeta.
  unfold Processor_init, new_AttachWare, set_proc, unherit, Parser_class, Compiler_class,
    get_member, bind, ret, get_heap, modify_heap, proc_at, ware_at, proc_field.
  simpl. rewrite !lookup_insert_eq. simpl. unfold proc_field. simpl.
  destruct (truthy (p_data (default blank_processor (procs h !! l)))) eqn:Hd.
  - rewrite extend_eq. simpl.
    match goal with |- context [extend_deep ?n ?d ?h0] =>
      destruct (extend_deep_objs n d h0 h eq_refl) as [G1 G2];
      pose proof (extend_deep_frame n d h0 _ _ (surjective_pairing _))
        as (Hp & Hf & Hw & Hc) end.
    simpl in Hp, Hf, Hw, Hc.
    do 2 eexists. split; [reflexivity|]. simpl.
    rewrite Hp, Hf, Hw, Hc, !insert_insert_eq, !lookup_insert_eq. simpl.
    rewrite G1, G2. done.
  - do 2 eexists. split; [reflexivity|]. simpl.
    rewrite !insert_insert_eq. done.
Qed.





Lemma new_Processor_fields processor s :
  let h := st_heap s in
  let l := fresh (dom (procs h)) in
  let w := fresh (dom (wares h)) in
  let c1 := fresh (classes h) in
  let c2 := fresh ({[c1]} ∪ classes h) in
  exists s' d',
    new_Processor processor s = (Ok (Proc l), s') /\
    procs (st_heap s') =
      <[l := MkProcessor (Ware w) (Fn (Ctor Parser (Some c1)))
                         (Fn (Ctor Compiler (Some c2))) d']> (procs h) /\
    wares (st_heap s') = <[w := MkWare [] (Proc l)]> (wares h) /\
    files (st_heap s') = files h /\
    classes (st_heap s') = {[c2]} ∪ ({[c1]} ∪ classes h) /\
    st_cells s' = st_cells s /\ st_trace s' = st_trace s /\
    (if truthy proto_data
     then d' = fst (extend_deep (S (size (objs h))) proto_data h) /\
          objs (st_heap s') = objs (snd (extend_deep (S (size (objs h))) proto_data h))
     else d' = proto_data /\ objs (st_heap s') = objs h).
Proof.
  cbv zeta. unfold new_Processor, bind, ret, get_heap, modify_heap. simpl.
  set (l := fresh (dom (procs (st_heap s)))).
  match goal with |- context [Processor_init l ?s0] =>
    destruct (Processor_init_fields l s0) as (s' & d' & E & Hp & Hw & Hf & Hc & Hd);
    destruct (Processor_init_spec l s0) as (s'' & _ & _ & _ & E' & _ & _ & _ & Hcl & Ht)
  end.
  rewrite E in E'. injection E' as <-.
  rewrite E. simpl in *. exists s', d'. split; [done|].
  unfold proc_at in Hd. simpl in Hd. rewrite lookup_insert_eq in Hd. simpl in Hd.
  rewrite Hp, Hw, Hf, Hc, Hcl, Ht, insert_insert_eq. repeat split; try done.
  destruct (truthy proto_data); [|exact Hd].
  match type of Hd with context [extend_deep ?n ?d ?h0] =>
    destruct (extend_deep_objs n d h0 (st_heap s) eq_refl) as [G1 G2] end.
  rewrite <- G1, <- G2. exact Hd.
Qed.

(** X1.  A new instance shares nothing with the instances there are: its
    registry and its clones of the Parser and of the Compiler are new, and
    the two clones differ.  Whatever is then registered on it with [use],
    every instance and every registry that existed stays as it was. *)
Theorem new_instance_is_isolated processor s :
  exists l w c1 c2 s1,
    new_Processor processor s = (Ok (Proc l), s1) /\
    procs (st_heap s) !! l = None /\
    wares (st_heap s) !! w = None /\
    (c1 ∉ classes (st_heap s)) /\ (c2 ∉ classes (st_heap s)) /\ c1 <> c2 /\
    p_ware (proc_at (st_heap s1) l) = Ware w /\
    p_Parser (proc_at (st_heap s1) l) = Fn (Ctor Parser (Some c1)) /\
    p_Compiler (proc_at (st_heap s1) l) = Fn (Ctor Compiler (Some c2)) /\
    forall ts, exists s2,
      use_each (Proc l) ts s1 = (Ok tt, s2) /\
      registry_of (st_heap s2) (Proc l) = map (fun t => (t, [])) ts /\
      (forall p0, is_Some (procs (st_heap s) !! p0) ->
                  procs (st_heap s2) !! p0 = procs (st_heap s) !! p0) /\
      (forall w0, is_Some (wares (st_heap s) !! w0) ->
                  wares (st_heap s2) !! w0 = wares (st_heap s) !! w0).
Proof.
  destruct (new_Processor_fields processor s)
    as (s1 & d' & E & Hp & Hw & _ & _ & _ & _ & _).
  set (l := fresh (dom (procs (st_heap s)))) in *.
  set (w := fresh (dom (wares (st_heap s)))) in *.
  set (c1 := fresh (classes (st_heap s))) in *.
  set (c2 := fresh ({[c1]} ∪ classes (st_heap s))) in *.
  exists l, w, c1, c2, s1. split; [exact E|].
  split; [apply fresh_loc_not_in|]. split; [apply fresh_loc_not_in|].
  split; [apply is_fresh|].
  assert (Hc2 : c2 ∉ {[c1]} ∪ classes (st_heap s)) by apply is_fresh.
  split; [set_solver|]. split; [set_solver|].
  assert (Hl : procs (st_heap s1) !! l = Some
            (MkProcessor (Ware w) (Fn (Ctor Parser (Some c1)))
                         (Fn (Ctor Compiler (Some c2))) d'))
    by (rewrite Hp; apply lookup_insert_eq).
  unfold proc_at. rewrite Hl. simpl. repeat split.
  intros ts.
  assert (G : forall ts s1,
            procs (st_heap s1) !! l = Some
              (MkProcessor (Ware w) (Fn (Ctor Parser (Some c1)))
                           (Fn (Ctor Compiler (Some c2))) d') ->
            exists s2,
              use_each (Proc l) ts s1 = (Ok tt, s2) /\
              procs (st_heap s2) = procs (st_heap s1) /\
              fns (ware_at (st_heap s2) w)
              = fns (ware_at (st_heap s1) w) ++ map (fun t => (t, [])) ts /\
              (forall w0, w0 <> w -> wares (st_heap s2) !! w0 = wares (st_heap s1) !! w0)).
  { clear. induction ts as [|t ts IH]; intros s1 Hl; simpl.
    - exists s1. rewrite app_nil_r. done.
    - unfold bind at 1. rewrite (use_on_instance _ _ _ _ _ _ Hl eq_refl).
      match goal with |- context [use_each _ ts ?s0] =>
        destruct (IH s0) as (s2 & E & Hp2 & Hf2 & Ho2); [exact Hl|] end.
      exists s2. rewrite E, Hp2, Hf2. repeat split; try done.
      + unfold ware_at. simpl. rewrite lookup_insert_eq. simpl. by rewrite <- app_assoc.
      + intros w0 Hw0. rewrite (Ho2 w0 Hw0). simpl. by rewrite lookup_insert_ne. }
  destruct (G ts s1 Hl) as (s2 & E2 & Hp2 & Hf2 & Ho2).
  exists s2. split; [exact E2|]. split; [|split].
  - unfold registry_of, prop. rewrite Hp2, Hl. simpl. rewrite Hf2.
    unfold ware_at. rewrite Hw, lookup_insert_eq. done.
  - intros p0 Hin. rewrite Hp2, Hp, lookup_insert_ne; [done|].
    apply not_eq_sym, fresh_loc_ne, Hin.
  - intros w0 Hin. assert (w0 <> w) by (apply fresh_loc_ne, Hin).
    rewrite (Ho2 w0), Hw, lookup_insert_ne; done.
Qed.

(** ** The data of an instance *)



(** ** [use] on an instance *)



(** ** The shapes of a call *)

Lemma resolve_tree_file_first g file s :
  truthy file = false ->
  resolve_tree (File g) file s = resolve_tree Null (File g) s.
Proof.
  intros Hf. rewrite !resolve_tree_eq. cbv zeta. simpl. rewrite Hf. reflexivity.
Qed.

Lemma resolve_tree_same g u s :
  truthy (slot_tree (st_heap s) g name) = true ->
  u = slot_tree (st_heap s) g name \/ truthy u = false ->
  resolve_tree u (File g) s
  = (Ok (slot_tree (st_heap s) g name, File g), with_heap s (ensure_space g (st_heap s))).
Proof.
  intros Ht [->|Hu].
  - rewrite (resolve_tree_given _ _ _ Ht), Ht. reflexivity.
  - apply resolve_tree_omitted; assumption.
Qed.

(** X4.  [run(file)], [run(file, done)] and [run(null, file, done)] on a
    carrier file whose slot holds a tree are [run(tree, file, done)] for
    that tree: same result, same calls, same store. *)
Theorem run_file_first this g file done s :
  truthy (slot_tree (st_heap s) g name) = true ->
  truthy (if is_function file then Null else file) = false ->
  let cb := if is_function file then Done file else done in
  run this (File g) file done s = run this (slot_tree (st_heap s) g name) (File g) cb s /\
  run this Null (File g) cb s = run this (slot_tree (st_heap s) g name) (File g) cb s.
Proof.
  intros Ht Hf cb. rewrite !run_eq. simpl.
  rewrite (resolve_tree_file_first _ _ _ Hf).
  rewrite (resolve_tree_same g Null s Ht (or_intror eq_refl)).
  rewrite (resolve_tree_same g _ s Ht (or_introl eq_refl)).
  split; reflexivity.
Qed.

(** X5.  [stringify(file, settings)] on a carrier file whose slot holds a
    tree is [stringify(tree, file, settings)] for that tree, when the
    settings are neither null nor undefined. *)
Theorem stringify_file_first this g settings x s :
  truthy (slot_tree (st_heap s) g name) = true ->
  absent settings = false -> absent x = true ->
  stringify this (File g) settings x s
  = stringify this (slot_tree (st_heap s) g name) (File g) settings s.
Proof.
  intros Ht Hs Hx. rewrite !stringify_eq, Hs, Hx.
  rewrite (resolve_tree_file_first g Null s eq_refl).
  rewrite (resolve_tree_same g Null s Ht (or_intror eq_refl)).
  rewrite (resolve_tree_same g _ s Ht (or_introl eq_refl)).
  reflexivity.
Qed.

(** ** The default callback *)




(** ** The receiver *)

(** X7.  [parse] and [run] need a receiver.  Called with none, [parse]
    throws a TypeError once the carrier file is made, and no Parser is
    built; [run] throws one once the tree is resolved, and neither a
    registered function nor the callback is called. *)
Theorem no_receiver_throws this :
  absent this = true ->
  (forall value_ settings s,
     exists m s', parse this value_ settings s = (Throw (TypeError m), s') /\
                  st_trace s' = st_trace s) /\
  (forall node file done s t fl s0,
     resolve_tree node (if is_function file then Null else file) s = (Ok (t, fl), s0) ->
     exists m, run this node file done s = (Throw (TypeError m), s0) /\
               st_trace s0 = st_trace s).
Proof.
  intros Hthis. split.
  - intros value_ settings s. unfold parse. unfold bind at 1. rewrite VFile_eq.
    destruct this; try discriminate Hthis; do 2 eexists; split; reflexivity.
  - intros node file done s t fl s0 Hres. rewrite run_eq, Hres.
    destruct (resolve_tree_frame _ _ _ _ _ Hres) as (_ & _ & _ & _ & Ht).
    unfold dispatch. unfold bind at 1.
    destruct (get_member_absent this "ware" s0 Hthis) as [m E]. rewrite E.
    exists m. done.
Qed.

(** X8.  [use], [createParser], [stringify] and [process] called with no
    receiver do what they do on the family class. *)
Theorem no_receiver_is_the_class this s :
  absent this = true ->
  (forall arguments, use this arguments s = use (Fn ProcessorCtor) arguments s) /\
  (forall value_ settings,
     createParser this value_ settings s = createParser (Fn ProcessorCtor) value_ settings s) /\
  (forall node file settings,
     stringify this node file settings s = stringify (Fn ProcessorCtor) node file settings s) /\
  (forall value_ settings,
     process this value_ settings s = process (Fn ProcessorCtor) value_ settings s).
Proof.
  intros Hthis.
  assert (Hown : forall k fb s0, own_class this k fb s0 = own_class (Fn ProcessorCtor) k fb s0).
  { intros k fb s0. rewrite !own_class_eq. destruct this; try discriminate Hthis; reflexivity. }
  assert (Hinst : instance this = instance (Fn ProcessorCtor)).
  { destruct this; try discriminate Hthis; reflexivity. }
  split; [|split; [|split]].
  - intros arguments. unfold use. by rewrite Hinst.
  - intros value_ settings. unfold createParser, bind.
    destruct (VFile value_ s) as [[f|e] s1]; [|done]. by rewrite Hown, Hinst.
  - intros node file settings. unfold stringify. unfold bind at 1.
    rewrite Hown. unfold bind at 3. by rewrite Hinst.
  - intros value_ settings. unfold process. by rewrite Hinst.
Qed.

Lemma VFile_heap_procs v h :
  procs (snd (VFile_heap v h)) = procs h /\ wares (snd (VFile_heap v h)) = wares h /\
  objs (snd (VFile_heap v h)) = objs h.
Proof. destruct v; done. Qed.

(** X9.  [createParser] on an instance builds the Parser that instance
    holds, on the carrier file of the value, and hands it the settings and
    the instance itself; on the family class it builds the Parser of the
    family and hands it a new instance, whose registry is empty. *)
Theorem createParser_by_receiver value_ settings s :
  let f := fst (VFile_heap value_ (st_heap s)) in
  let s1 := with_heap s (snd (VFile_heap value_ (st_heap s))) in
  (forall p rec i c,
     procs (st_heap s) !! p = Some rec -> p_Parser rec = Fn (Ctor i c) ->
     createParser (Proc p) value_ settings s
     = (Ok (MkBuilt i (File f) settings (Proc p)), s1)) /\
  (exists l s2,
     createParser (Fn ProcessorCtor) value_ settings s
     = (Ok (MkBuilt Parser (File f) settings (Proc l)), s2) /\
     procs (st_heap s) !! l = None /\
     is_Some (procs (st_heap s2) !! l) /\
     registry_of (st_heap s2) (Proc l) = [] /\
     files (st_heap s2) = files (st_heap s1)).
Proof.
  cbv zeta. destruct (VFile_heap_procs value_ (st_heap s)) as (Hp & Hw & Ho). split.
  - intros p rec i c Hrec HP. unfold createParser. unfold bind at 1. rewrite VFile_eq.
    unfold bind at 1. rewrite own_class_eq. simpl.
    unfold prop. rewrite Hp, Hrec. simpl. unfold proc_field. simpl.
    rewrite HP. reflexivity.
  - unfold createParser. unfold bind at 1. rewrite VFile_eq.
    unfold bind at 1. rewrite own_class_eq. simpl.
    destruct (new_Processor_fields Undefined
                (with_heap s (snd (VFile_heap value_ (st_heap s)))))
      as (s2 & d' & E & Hp2 & Hw2 & Hf2 & _).
    simpl in *. unfold bind, ret, instance. simpl. rewrite E, Hp. simpl.
    exists (fresh (dom (procs (st_heap s)))), s2. split; [reflexivity|].
    rewrite Hp in Hp2. split; [apply fresh_loc_not_in|].
    split; [rewrite Hp2, lookup_insert_eq; by eexists|].
    split; [|exact Hf2].
    unfold registry_of, prop. rewrite Hp2, lookup_insert_eq. simpl.
    unfold ware_at. rewrite Hw2, lookup_insert_eq. reflexivity.
Qed.

(** X10.  [stringify], once the tree is resolved, builds the Compiler of
    its receiver and returns what its [compile] returns, or throws what it
    throws.  The Compiler is handed the carrier file, the settings and an
    instance, and not the tree: an instance builds the Compiler it holds
    and hands it itself; the family class builds the Compiler of the family
    and hands it a new instance. *)
Theorem stringify_by_receiver node file settings s t fl s0 :
  resolve_tree node (if absent settings then Null else file) s = (Ok (t, fl), s0) ->
  let st := if absent settings then file else settings in
  (forall p rec i c,
     procs (st_heap s) !! p = Some rec -> p_Compiler rec = Fn (Ctor i c) ->
     stringify (Proc p) node file settings s
     = (fst (compiler_compile i fl st (Proc p) (st_heap s0)),
        MkState (snd (compiler_compile i fl st (Proc p) (st_heap s0))) (st_cells s)
                (st_trace s ++ [EvCompile i fl st (Proc p)]))) /\
  (exists l sa,
     new_Processor Undefined s0 = (Ok (Proc l), sa) /\
     procs (st_heap s) !! l = None /\
     stringify (Fn ProcessorCtor) node file settings s
     = (fst (compiler_compile Compiler fl st (Proc l) (st_heap sa)),
        MkState (snd (compiler_compile Compiler fl st (Proc l) (st_heap sa))) (st_cells s)
                (st_trace s ++ [EvCompile Compiler fl st (Proc l)]))).
Proof.
  intros Hres st. destruct (resolve_tree_frame _ _ _ _ _ Hres) as (Hp & _ & Ho & Hc & Ht).
  split.
  - intros p rec i c Hrec HC. rewrite stringify_eq, Hres. simpl.
    unfold compile_with. unfold bind at 1. rewrite own_class_eq. simpl.
    unfold prop. rewrite Hp, Hrec. simpl. unfold proc_field. simpl.
    rewrite HC. simpl.
    unfold compile_of, log, bind, ret. simpl. fold st. rewrite Hc, Ht.
    destruct (compiler_compile i fl st (Proc p) (st_heap s0)) as [r h']. reflexivity.
  - destruct (new_Processor_fields Undefined s0)
      as (sa & d' & E & _ & _ & _ & _ & Hca & Hta & _).
    exists (fresh (dom (procs (st_heap s0)))), sa. split; [exact E|].
    split; [rewrite Hp; apply fresh_loc_not_in|].
    rewrite stringify_eq, Hres. simpl.
    unfold compile_with. unfold bind at 1. rewrite own_class_eq. simpl.
    unfold bind at 1, instance. simpl. rewrite E.
    unfold Compiler_class, new_, compile_of, log, bind, ret. simpl. fold st.
    rewrite Hca, Hta, Hc, Ht.
    destruct (compiler_compile Compiler fl st _ (st_heap sa)) as [r h']. reflexivity.
Qed.

(** X11.  [stringify(tree, file, settings)] on a carrier file whose slot
    holds a tree compiles with the slot as it is: whatever tree is given,
    the call does what it does for the tree of the slot. *)
Theorem stringify_ignores_given_tree this g u settings s :
  truthy (slot_tree (st_heap s) g name) = true ->
  truthy u = true -> absent settings = false ->
  slot_tree (snd (resolve_tree u (File g) s)).(st_heap) g name = slot_tree (st_heap s) g name /\
  stringify this u (File g) settings s
  = stringify this (slot_tree (st_heap s) g name) (File g) settings s.
Proof.
  intros Ht Hu Hs. rewrite !stringify_eq, Hs.
  rewrite (resolve_tree_given _ _ _ Hu), Ht.
  rewrite (resolve_tree_same g _ s Ht (or_introl eq_refl)). simpl.
  split; [apply slot_tree_ensure|reflexivity].
Qed.

(** ** What [process] runs *)

Lemma registry_frame l h h' :
  procs h' = procs h -> wares h' = wares h ->
  registry_of h' (Proc l) = registry_of h (Proc l) /\
  registry_context h' (Proc l) = registry_context h (Proc l).
Proof.
  intros Hp Hw. unfold registry_of, registry_context, prop, ware_at. by rewrite Hp, Hw.
Qed.

Lemma run_log_members ctx args fs evs ro :
  run_log ctx args fs evs ro ->
  forall f x a c, EvTransform f x a c ∈ evs ->
    x = ctx /\ exists bound, (f, bound) ∈ fs /\ a = bound ++ args.
Proof.
  induction 1 as [|f0 bound rest c0 evs ro Hc H IH|f0 bound rest c0 e Hc];
    intros f x a c Hin.
  - by apply not_elem_of_nil in Hin.
  - apply elem_of_cons in Hin as [Heq|Hin].
    + injection Heq as -> -> -> ->. split; [done|]. exists bound. split; [left|done].
    + destruct (IH _ _ _ _ Hin) as (-> & b & Hb & ->).
      split; [done|]. exists b. split; [by right|done].
  - apply list_elem_of_singleton in Hin. injection Hin as -> -> -> ->.
    split; [done|]. exists bound. split; [left|done].
Qed.

Lemma createParser_on_instance p value_ settings s :
  createParser (Proc p) value_ settings s =
    new_ (if truthy (prop (st_heap s) (Proc p) "Parser")
          then prop (st_heap s) (Proc p) "Parser" else Parser_class)
         (File (fst (VFile_heap value_ (st_heap s)))) settings (Proc p)
         (with_heap s (snd (VFile_heap value_ (st_heap s)))).
Proof.
  destruct (VFile_heap_procs value_ (st_heap s)) as (Hp & _ & Ho).
  unfold createParser. unfold bind at 1. rewrite VFile_eq.
  unfold bind at 1. rewrite own_class_eq. simpl.
  unfold prop. rewrite Hp. reflexivity.
Qed.





Lemma process_eq_registry this value_ settings s :
  exists opts sa p,
    ctx_context opts = Proc p /\
    is_function (ctx_file opts) = false /\
    st_trace sa = st_trace s /\
    (if is_Processor this
     then this = Proc p /\ procs (st_heap sa) = procs (st_heap s) /\
          wares (st_heap sa) = wares (st_heap s)
     else registry_of (st_heap sa) (Proc p) = []) /\
    process this value_ settings s =
      match steps_run pipeline opts sa with
      | (Ok (err, res), s') =>
          (Ok (if truthy err then Rejected err
               else Resolved (MkProcessed (ctx_file res) (ctx_result res))), s')
      | (Throw e, s') => (Throw e, s')
      end.
Proof.
  unfold process. unfold bind at 1.
  assert (Hi : exists p s1,
            instance this s = (Ok (Proc p), s1) /\ st_trace s1 = st_trace s /\
            (if is_Processor this
             then this = Proc p /\ procs (st_heap s1) = procs (st_heap s) /\
                  wares (st_heap s1) = wares (st_heap s)
             else registry_of (st_heap s1) (Proc p) = [])).
  { unfold instance. destruct (is_Processor this) eqn:Hthis.
    - destruct this; try discriminate Hthis. eexists _, s. done.
    - destruct (new_Processor_fields Undefined s)
        as (s1 & d' & E & Hp & Hw & _ & _ & _ & Ht & _).
      eexists _, s1. split; [exact E|]. split; [exact Ht|].
      unfold registry_of, prop, ware_at. rewrite Hp, lookup_insert_eq. simpl.
      rewrite Hw, lookup_insert_eq. reflexivity. }
  destruct Hi as (p & s1 & Ei & Ht1 & H1). rewrite Ei. unfold bind at 1.
  assert (Hset : exists st s2,
            (if truthy settings then ret settings else l <~ alloc_obj ∅ ;; ret (Obj l)) s1
            = (Ok st, s2) /\ st_trace s2 = st_trace s1 /\
            procs (st_heap s2) = procs (st_heap s1) /\
            wares (st_heap s2) = wares (st_heap s1)).
  { destruct (truthy settings); [exists settings, s1; done|].
    unfold alloc_obj, bind, get_heap, modify_heap, ret. simpl.
    eexists _, _. split; [reflexivity|]. done. }
  destruct Hset as (st & s2 & Es & Ht2 & Hp2 & Hw2). rewrite Es. unfold bind at 1.
  assert (H2 : if is_Processor this
               then this = Proc p /\ procs (st_heap s2) = procs (st_heap s) /\
                    wares (st_heap s2) = wares (st_heap s)
               else registry_of (st_heap s2) (Proc p) = []).
  { destruct (is_Processor this).
    - destruct H1 as (-> & Ha & Hb). repeat split; congruence.
    - by rewrite (proj1 (registry_frame p _ _ Hp2 Hw2)). }
  destruct (is_string value_ || is_VFile value_) eqn:Hv.
  - unfold bind at 1. rewrite VFile_eq. unfold ret at 1.
    destruct (VFile_heap_procs value_ (st_heap s2)) as (Hp3 & Hw3 & _).
    exists (MkCtx (Proc p) st (File (fst (VFile_heap value_ (st_heap s2)))) Undefined Undefined),
           (with_heap s2 (snd (VFile_heap value_ (st_heap s2)))), p.
    split; [done|]. split; [done|]. split; [simpl; congruence|]. split.
    { simpl. destruct (is_Processor this).
      - destruct H2 as (-> & Ha & Hb). repeat split; congruence.
      - by rewrite (proj1 (registry_frame p _ _ Hp3 Hw3)). }
    unfold bind.
    destruct (steps_run pipeline _ _) as [[[err res]|e] s'];
      [destruct (truthy err)|]; reflexivity.
  - unfold ret at 1.
    exists (MkCtx (Proc p) st Undefined value_ Undefined), s2, p.
    split; [done|]. split; [done|]. split; [congruence|]. split; [exact H2|].
    unfold bind.
    destruct (steps_run pipeline _ _) as [[[err res]|e] s'];
      [destruct (truthy err)|]; reflexivity.
Qed.


(** X13.  [process] given a tree, that is a truthy value that is neither a
    string nor a carrier file, builds and calls no Parser. *)
Theorem process_of_tree_never_parses this value_ settings s r s' :
  is_string value_ || is_VFile value_ = false -> truthy value_ = true ->
  process this value_ settings s = (r, s') ->
  exists evs, st_trace s' = st_trace s ++ evs /\ Forall (fun ev => ~ is_parse_ev ev) evs.
Proof.
  intros Hv Htree Hrun.
  destruct (process_eq this value_ settings s)
    as (opts & sa & _ & Hta & _ & Ht & Hf & E).
  rewrite Hv in Ht, Hf. rewrite E in Hrun. clear E.
  destruct (steps_run pipeline opts sa) as [r0 s0] eqn:Es.
  assert (Hs : s0 = s') by (destruct r0 as [[err res]|e]; congruence). subst s0.
  unfold pipeline in Es. cbn [steps_run] in Es. unfold bind at 1, try_ at 1 in Es.
  unfold pipeline_parse at 1 in Es. rewrite Ht, Htree in Es. unfold ret at 1 in Es.
  simpl in Es.
  apply pipeline_tail2 in Es as (err & c' & _ & _ & evs & Htr & Hnp & _);
    [|by rewrite Hf].
  exists evs. by rewrite Htr, Hta.
Qed.

(** ** The order of the pipeline *)

Lemma pipeline_tail2_phases c s r s' :
  is_function (ctx_file c) = false ->
  steps_run [pipeline_run; pipeline_stringify] c s = (r, s') ->
  exists re se,
    st_trace s' = st_trace s ++ re ++ se /\
    Forall is_run_ev re /\ Forall is_stringify_ev se.
Proof.
  intros Hfile. cbn [steps_run]. unfold bind at 1, try_ at 1.
  destruct (pipeline_run c s) as [r2 s2] eqn:E2.
  apply (pipeline_run_facts _ _ _ _ Hfile) in E2 as (evs2 & Ht2 & HF2 & _ & Hc2).
  assert (Hstop : exists re se,
            st_trace s2 = st_trace s ++ re ++ se /\
            Forall is_run_ev re /\ Forall is_stringify_ev se).
  { exists evs2, []. rewrite app_nil_r. done. }
  assert (Hcont : forall r s', steps_run [pipeline_stringify] c s2 = (r, s') ->
            exists re se,
              st_trace s' = st_trace s ++ re ++ se /\
              Forall is_run_ev re /\ Forall is_stringify_ev se).
  { intros r0 s0 E.
    apply pipeline_tail3 in E as (err & c' & -> & _ & (evs3 & Ht3 & HF3) & _).
    exists evs2, evs3. rewrite Ht3, Ht2, <- app_assoc. done. }
  destruct r2 as [[err2 c2]|e2]; simpl.
  - subst c2. destruct (truthy err2); [by intros [= <- <-]|apply Hcont].
  - destruct (truthy e2); [by intros [= <- <-]|apply Hcont].
Qed.

(** X14.  The log of [process] is in three parts, in this order: what the
    Parser was asked, then the calls of the registered functions and of the
    callback of the run, then what the Compiler was asked.  Nothing of an
    earlier stage happens after a later one began. *)
Theorem process_in_three_stages this value_ settings s r s' :
  process this value_ settings s = (r, s') ->
  exists pe re se,
    st_trace s' = st_trace s ++ pe ++ re ++ se /\
    Forall is_parse_ev pe /\ Forall is_run_ev re /\ Forall is_stringify_ev se.
Proof.
  intros Hrun.
  destruct (process_eq_registry this value_ settings s)
    as (opts & sa & p & _ & Hfile & Hta & _ & E).
  rewrite E in Hrun. clear E.
  destruct (steps_run pipeline opts sa) as [r0 s0] eqn:Es.
  assert (Hs : s0 = s') by (destruct r0 as [[err res]|e]; congruence). subst s0.
  clear Hrun. rewrite <- Hta. revert Es.
  unfold pipeline. cbn [steps_run]. unfold bind at 1, try_ at 1.
  destruct (pipeline_parse opts sa) as [r1 s1] eqn:E1.
  apply pipeline_parse_facts in E1 as [(evs1 & Ht1 & HF1) H1].
  assert (Hstop : exists pe re se,
            st_trace s1 = st_trace sa ++ pe ++ re ++ se /\
            Forall is_parse_ev pe /\ Forall is_run_ev re /\ Forall is_stringify_ev se).
  { exists evs1, [], []. rewrite app_nil_r. done. }
  assert (Hcont : forall c1 r s',
            ctx_file c1 = ctx_file opts ->
            steps_run [pipeline_run; pipeline_stringify] c1 s1 = (r, s') ->
            exists pe re se,
              st_trace s' = st_trace sa ++ pe ++ re ++ se /\
              Forall is_parse_ev pe /\ Forall is_run_ev re /\ Forall is_stringify_ev se).
  { intros c1 r2 s2 Hc E2.
    apply pipeline_tail2_phases in E2 as (re & se & Ht & Hr & Hse); [|by rewrite Hc].
    exists evs1, re, se. rewrite Ht, Ht1, <- app_assoc. done. }
  destruct r1 as [[err1 c1]|e1]; simpl.
  - destruct H1 as (_ & _ & Hc & _). destruct (truthy err1).
    + by intros [= <- <-].
    + intros E2. eapply Hcont; eauto.
  - destruct (truthy e1).
    + by intros [= <- <-].
    + intros E2. eapply Hcont; eauto.
Qed.

(** ** What the pipeline carries *)

Lemma steps_run_Forall (Q : event -> Prop) (Inv : ctx -> Prop) steps :
  (forall step c s r s1,
     step ∈ steps -> Inv c -> step c s = (r, s1) ->
     (exists evs, st_trace s1 = st_trace s ++ evs /\ Forall Q evs) /\
     match r with Ok (_, c') => Inv c' | Throw _ => True end) ->
  forall c s r s',
    Inv c -> steps_run steps c s = (r, s') ->
    exists evs, st_trace s' = st_trace s ++ evs /\ Forall Q evs.
Proof.
  induction steps as [|step rest IH]; intros Hsteps c s r s' Hc.
  - intros [= <- <-]. exists []. by rewrite app_nil_r.
  - cbn [steps_run]. unfold bind at 1, try_ at 1.
    destruct (step c s) as [r1 s1] eqn:E1.
    destruct (Hsteps step c s r1 s1 ltac:(left) Hc E1) as [(evs1 & Ht1 & HF1) H1].
    assert (Hcont : forall c1, Inv c1 -> steps_run rest c1 s1 = (r, s') ->
              exists evs, st_trace s' = st_trace s ++ evs /\ Forall Q evs).
    { intros c1 Hc1 E. apply IH in E as (evs & Ht & HF); [|..|exact Hc1].
      - exists (evs1 ++ evs). rewrite Ht, Ht1, <- app_assoc. split; [done|].
        apply Forall_app. done.
      - intros st0 c0 s0 r0 s2 Hin. apply Hsteps. by right. }
    destruct r1 as [[err1 c1]|e1]; simpl.
    + destruct (truthy err1); [intros [= <- <-]; eauto|by apply Hcont].
    + destruct (truthy e1); [intros [= <- <-]; eauto|by apply Hcont].
Qed.

Lemma resolve_tree_file node g s nf s0 :
  resolve_tree node (File g) s = (Ok nf, s0) -> snd nf = File g.
Proof.
  rewrite resolve_tree_eq. cbv zeta. simpl.
  destruct (truthy node); [by intros [= <- <-]|].
  destruct (truthy (slot_tree _ _ _)); [by intros [= <- <-]|discriminate].
Qed.

Lemma parse_carries p g st s r s' :
  parse (Proc p) (File g) st s = (r, s') ->
  exists evs, st_trace s' = st_trace s ++ evs /\ Forall (carries g st p) evs.
Proof.
  unfold parse. unfold bind at 1. rewrite VFile_eq. simpl.
  unfold bind at 1. rewrite createParser_on_instance. simpl.
  unfold new_.
  match goal with |- context [match ?C with Fn _ => _ | _ => _ end] =>
    destruct C as [| | | |fn| | | | | |];
      try (unfold throw; intros [= <- <-]; exists []; by rewrite app_nil_r);
    destruct fn;
      try (unfold throw; intros [= <- <-]; exists []; by rewrite app_nil_r) end.
  unfold parse_of, namespace, space_set, bind, modify_heap, ret, log. simpl.
  destruct (parser_parse _ _ _ _ _) as [[[node|e]|e] h2]; simpl;
    intros [= <- <-]; simpl;
    (eexists; split; [reflexivity|]; by repeat constructor).
Qed.

Lemma run_carries p node g k s r s' :
  run (Proc p) node (File g) (Next k) s = (r, s') ->
  exists evs, st_trace s' = st_trace s ++ evs /\ Forall (carries g Undefined p) evs /\
              forall st q, Forall (carries g st q) evs.
Proof.
  rewrite run_eq. simpl.
  destruct (resolve_tree _ _ s) as [[nf|e] s0] eqn:E.
  2:{ apply resolve_tree_frame in E as (_ & _ & _ & _ & Ht).
      intros [= <- <-]. exists []. rewrite app_nil_r. done. }
  pose proof (resolve_tree_file _ _ _ _ _ E) as Hfile.
  apply resolve_tree_frame in E as (_ & _ & _ & _ & Ht).
  destruct (dispatch _ _ _ _ s0) as [r0 s2] eqn:D.
  apply dispatch_log in D as [(m & -> & -> & _) | (ro & evs & Hlog & Ht2 & _)].
  { intros [= <- <-]. exists []. rewrite app_nil_r. done. }
  assert (Hall : forall st q, Forall (carries g st q)
            (evs ++ [EvCallback (done_or_bail (Next k)) (done_args ro nf.1 nf.2)])).
  { intros st q. apply Forall_app. split; [|by repeat constructor].
    apply Forall_forall. intros ev Hin. destruct ev; try exact I.
    - destruct (run_log_members _ _ _ _ _ Hlog _ _ _ _ Hin) as (_ & b & _ & ->).
      simpl. rewrite Hfile. eauto.
    - pose proof (run_log_events _ _ _ _ _ Hlog) as HF.
      rewrite Forall_forall in HF. destruct (HF _ Hin).
    - pose proof (run_log_events _ _ _ _ _ Hlog) as HF.
      rewrite Forall_forall in HF. destruct (HF _ Hin).
    - pose proof (run_log_events _ _ _ _ _ Hlog) as HF.
      rewrite Forall_forall in HF. destruct (HF _ Hin). }
  intros Hr. assert (Hs : s2 = s') by (destruct r0; congruence). subst s2.
  eexists. split; [rewrite Ht2, Ht; reflexivity|]. split; [apply Hall|exact Hall].
Qed.

Lemma stringify_carries p node g st s r s' :
  absent st = false ->
  stringify (Proc p) node (File g) st s = (r, s') ->
  exists evs, st_trace s' = st_trace s ++ evs /\ Forall (carries g st p) evs.
Proof.
  intros Hst. rewrite stringify_eq, Hst.
  destruct (resolve_tree _ _ s) as [[nf|e] s0] eqn:E.
  2:{ apply resolve_tree_frame in E as (_ & _ & _ & _ & Ht).
      intros [= <- <-]. exists []. rewrite app_nil_r. done. }
  pose proof (resolve_tree_file _ _ _ _ _ E) as Hfile. rewrite Hfile.
  apply resolve_tree_frame in E as (_ & _ & _ & _ & Ht).
  unfold compile_with. unfold bind at 1. rewrite own_class_eq. simpl.
  unfold new_.
  match goal with |- context [match ?C with Fn _ => _ | _ => _ end] =>
    destruct C as [| | | |fn| | | | | |];
      try (unfold bind, throw; simpl; intros [= <- <-]; exists []; by rewrite app_nil_r);
    destruct fn;
      try (unfold bind, throw; simpl; intros [= <- <-]; exists []; by rewrite app_nil_r) end.
  unfold compile_of, log, bind, ret. simpl.
  destruct (compiler_compile _ _ _ _ _) as [r0 h2]. intros [= <- <-]. simpl.
  rewrite Ht. eexists; split; [reflexivity|]; by repeat constructor.
Qed.

(** X15.  [process] given a string or a carrier file carries one file, one
    settings value and one instance through its three stages: the Parser
    and the Compiler are built on that file, with those settings and that
    instance, and every registered function is called with a tree and that
    file.  The file is the one given, when one is given; the settings are
    the ones given, when they are truthy; the instance is the receiver,
    when it is one. *)
Theorem process_carries_one_file this value_ settings s r s' :
  is_string value_ || is_VFile value_ = true ->
  process this value_ settings s = (r, s') ->
  exists g st p evs,
    st_trace s' = st_trace s ++ evs /\ Forall (carries g st p) evs /\
    (forall g0, value_ = File g0 -> g = g0) /\
    (truthy settings = true -> st = settings) /\
    (is_Processor this = true -> this = Proc p).
Proof.
  intros Hv. unfold process. unfold bind at 1.
  assert (Hi : exists p s1,
            instance this s = (Ok (Proc p), s1) /\ st_trace s1 = st_trace s /\
            (is_Processor this = true -> this = Proc p)).
  { unfold instance. destruct (is_Processor this) eqn:Hthis.
    - destruct this; try discriminate Hthis. eexists _, s. done.
    - destruct (new_Processor_fields Undefined s)
        as (s1 & d' & E & _ & _ & _ & _ & _ & Ht & _).
      eexists _, s1. done. }
  destruct Hi as (p & s1 & Ei & Ht1 & H1). rewrite Ei. unfold bind at 1.
  assert (Hset : exists st s2,
            (if truthy settings then ret settings else l <~ alloc_obj ∅ ;; ret (Obj l)) s1
            = (Ok st, s2) /\ st_trace s2 = st_trace s1 /\ truthy st = true /\
            (truthy settings = true -> st = settings)).
  { destruct (truthy settings) eqn:Hs; [exists settings, s1; done|].
    unfold alloc_obj, bind, get_heap, modify_heap, ret. simpl.
    eexists _, _. split; [reflexivity|]. done. }
  destruct Hset as (st & s2 & Es & Ht2 & Hst & Hst'). rewrite Es. unfold bind at 1.
  rewrite Hv. unfold bind at 1. rewrite VFile_eq. unfold ret at 1.
  set (g := fst (VFile_heap value_ (st_heap s2))).
  set (sa := with_heap s2 (snd (VFile_heap value_ (st_heap s2)))).
  set (opts := MkCtx (Proc p) st (File g) Undefined Undefined).
  unfold bind. destruct (steps_run pipeline opts sa) as [r0 s0] eqn:Esteps.
  intros Hr. assert (Hs : s0 = s').
  { destruct r0 as [[err res]|e]; [destruct (truthy err)|];
      unfold ret in Hr; congruence. }
  subst s0. clear Hr.
  assert (Habs : absent st = false) by (destruct st; done).
  apply (steps_run_Forall (carries g st p)
           (fun c => ctx_context c = Proc p /\ ctx_file c = File g /\ ctx_settings c = st))
    in Esteps as (evs & Ht & HF); [| |done].
  - exists g, st, p, evs. split; [rewrite Ht; simpl; congruence|]. split; [exact HF|].
    split; [|done]. intros g0 ->. reflexivity.
  - intros step c sx rx sy Hin (Hc & Hf & Hs) E.
    unfold pipeline in Hin. rewrite !elem_of_cons in Hin.
    destruct Hin as [->|[->|[->|Hin]]]; [| | |by apply not_elem_of_nil in Hin].
    + pose proof (pipeline_parse_facts _ _ _ _ E) as [_ H2].
      split; [|destruct rx as [[err c']|e]; [|done];
               destruct H2 as (Ha & Hb & Hd & _); repeat split; congruence].
      revert E. unfold pipeline_parse. destruct (truthy (ctx_tree c)).
      * intros [= <- <-]. exists []. by rewrite app_nil_r.
      * unfold bind. rewrite Hc, Hf, Hs.
        destruct (parse _ _ _ sx) as [[[tree|e]|e] s0] eqn:Ep;
          apply parse_carries in Ep; by intros [= <- <-].
    + revert E. unfold pipeline_run. unfold bind. rewrite Hc, Hf.
      destruct (run _ _ _ _ sx) as [[u|e] s0] eqn:Er;
        apply run_carries in Er as (evs & Ht & _ & HF); intros [= <- <-];
        (split; [exists evs; split; [exact Ht|apply HF]|done]).
    + revert E. unfold pipeline_stringify, bind, ret, log. rewrite Hc, Hf, Hs.
      match goal with |- context [stringify _ _ _ _ ?s0] =>
        destruct (stringify (Proc p) (ctx_tree c) (File g) st s0)
          as [[v|e] sz] eqn:Ec end;
        destruct (stringify_carries _ _ _ _ _ _ _ Habs Ec) as (evs & Ht & HF);
        simpl in Ht; intros [= <- <-];
        (split; [exists (EvStringify (ctx_tree c) (File g) st :: evs);
                 rewrite Ht, <- app_assoc; split; [done|by constructor]
                |simpl; done]).
Qed.

(** ** When parsing fails *)

Lemma parse_fails this value_ settings s r s' :
  parser_never_resolves ->
  parse this value_ settings s = (r, s') ->
  match r with
  | Ok (Resolved _) => False
  | Ok (Rejected e) | Throw e => truthy e = true
  end.
Proof.
  intros Hk. rewrite parse_eq. unfold build_parser. unfold bind at 1, bind at 1.
  rewrite VFile_eq. unfold bind at 1.
  destruct (call_createParser _ _ _ _) as [[b|e] s1] eqn:Ec.
  - unfold ret at 1. unfold parse_of, namespace, space_set, bind, modify_heap, ret, log.
    simpl.
    pose proof (Hk (b_impl b) (b_file b) (b_settings b) (b_processor b) (st_heap s1)) as H.
    destruct (parser_parse _ _ _ _ (st_heap s1)) as [[[node|e]|e] h2]; simpl in *;
      intros [= <- <-]; exact H.
  - intros [= <- <-]. revert Ec. unfold call_createParser.
    assert (G : createParser this (File (fst (VFile_heap value_ (st_heap s)))) settings
                  (with_heap s (snd (VFile_heap value_ (st_heap s)))) = (Throw e, s1) ->
                truthy e = true).
    { unfold createParser. unfold bind at 1. rewrite VFile_eq. simpl.
      unfold bind at 1. rewrite own_class_eq. unfold bind at 1.
      match goal with |- context [instance this ?sy] =>
        destruct (instance_spec this sy) as (self & s3 & Ei & _) end.
      rewrite Ei. unfold new_.
      match goal with |- context [match ?C with Fn _ => _ | _ => _ end] =>
        destruct C as [| | | |fn| | | | | |]; try (intros [= <- <-]; done);
        destruct fn; intros [= <- <-]; done end. }
    destruct this as [| | | |fn| | | | | |]; try (intros [= <- <-]; done); [|exact G].
    destruct fn; try (intros [= <- <-]; done). exact G.
Qed.

(** X16.  When the Parser fails, nothing else runs: [process] given a
    string or a carrier file, with Parsers that reject or throw, rejects
    with a truthy error; no registered function and no callback is called,
    and no Compiler is built. *)
Theorem process_parse_failure this value_ settings s r s' :
  parser_never_resolves ->
  is_string value_ || is_VFile value_ = true ->
  process this value_ settings s = (r, s') ->
  exists e evs,
    r = Ok (Rejected e) /\ truthy e = true /\
    st_trace s' = st_trace s ++ evs /\ Forall is_parse_ev evs.
Proof.
  intros Hk Hv Hrun.
  destruct (process_eq this value_ settings s)
    as (opts & sa & _ & Hta & _ & Ht & _ & E).
  rewrite Hv in Ht. rewrite E in Hrun. clear E.
  revert Hrun. unfold pipeline. cbn [steps_run]. unfold bind at 1, try_ at 1.
  unfold pipeline_parse. rewrite Ht. simpl. unfold bind at 1.
  destruct (parse _ _ _ sa) as [r1 s1] eqn:Ep.
  pose proof (parse_fails _ _ _ _ _ _ Hk Ep) as Hr1.
  apply parse_trace in Ep as (evs & Htr & HF & _).
  destruct r1 as [[node|e]|e]; [done| |]; unfold ret; simpl; rewrite Hr1; simpl;
    rewrite ?Hr1; intros [= <- <-]; exists e, evs; rewrite Htr, Hta; done.
Qed.

End properties.

(** * The claims on the family [md] *)

(** C1, as stated, fails: two calls of [use] on the bare class do not
    give one instance.  They give the instances 1 and 2, and the registry of
    the second holds [B] alone. *)
Lemma use_on_class_not_memoized :
  (~ exists p s1 s2,
       use (fam := md) the_class [A] init_state = (Ok p, s1) /\
       use (fam := md) the_class [B] s1 = (Ok p, s2)) /\
  let s1 := snd (use (fam := md) the_class [A] init_state) in
  let r2 := use (fam := md) the_class [B] s1 in
  fst (use (fam := md) the_class [A] init_state) = Ok (Proc 1%positive) /\
  fst r2 = Ok (Proc 2%positive) /\
  registry_of (st_heap (snd r2)) (Proc 1%positive) = [(A, [])] /\
  registry_of (st_heap (snd r2)) (Proc 2%positive) = [(B, [])].
Proof.
  split.
  - intros (p & s1 & s2 & E1 & E2). vm_compute in E1. injection E1 as <- <-.
    vm_compute in E2. discriminate E2.
  - vm_compute. repeat split.
Qed.



(** C3, as stated, fails: the carrier file 1 holds a tree in its slot, yet
    [stringify(null, file)] throws, for the file is taken as the settings;
    and [stringify(tree, file)] has the Compiler built on a new file 2, with
    the file 1 as its settings. *)
Lemma stringify_file_is_settings :
  slot_tree (st_heap s_parsed) 1%positive "md" = Obj 1%positive /\
  fst (stringify (host := demo_host) (fam := md) the_class Null (File 1%positive)
                 Undefined s_parsed)
  = Throw (Error_ "Expected node, got null") /\
  st_trace (snd (stringify (host := demo_host) (fam := md) the_class (Obj 1%positive)
                           (File 1%positive) Undefined s_parsed))
  = st_trace s_parsed ++ [EvCompile 1 (File 2%positive) (File 1%positive) (Proc 2%positive)].
Proof. vm_compute. repeat split. Qed.

Lemma stringify_without_settings_witness :
  absent Undefined = true /\
  exists got s0,
    stringify (host := demo_host) (fam := md) the_class Null (File 1%positive)
              Undefined s_parsed
    = (Throw (Error_ ("Expected node, got " +:+ got)), s0).
Proof.
  split; [reflexivity|].
  apply (stringify_without_settings (host := demo_host) (fam := md) the_class Null
           (File 1%positive) Undefined s_parsed eq_refl).
  left. reflexivity.
Defined.


Lemma no_tree_is_thrown_witness :
  no_tree (fam := md) (st_heap init_state) Undefined Undefined /\
  exists got s',
    run (host := demo_host) (fam := md) the_class Undefined Undefined (Done Undefined)
        init_state
    = (Throw (Error_ ("Expected node, got " +:+ got)), s') /\
    st_trace s' = st_trace init_state.
Proof.
  assert (H : no_tree (fam := md) (st_heap init_state) Undefined Undefined)
    by (left; split; reflexivity).
  split; [exact H|].
  exact (proj1 (no_tree_is_thrown (host := demo_host) (fam := md) the_class Undefined
                  Undefined (Done Undefined) Undefined init_state) H).
Defined.


(** The two calls of C6 on [s_doc], evaluated: both return the tree. *)
Example run_then_run_returns_tree :
  let r1 := run (host := demo_host) (fam := md) the_class (Obj 1%positive) (File 1%positive)
                (Done Undefined) s_doc in
  fst r1 = Ok (Obj 1%positive) /\
  fst (run (host := demo_host) (fam := md) the_class Null (File 1%positive) (Done C) (snd r1))
  = Ok (Obj 1%positive).
Proof. vm_compute. repeat split. Qed.

Lemma transformer_error_rejects_witness :
  let r := process (host := demo_host) (fam := md) (Proc 1%positive) (Str "# a") Undefined
                   s_used in
  let evs := [EvParse 0 (File 1%positive) (Obj 1%positive) (Proc 1%positive);
              EvTransform B (Proc 1%positive) [Obj 2%positive; File 1%positive]
                          (Continued boom);
              EvCallback (Next 1%positive) [boom]] in
  st_trace (snd r) = st_trace s_used ++ evs /\
  error_of (Continued boom) = Some boom /\
  fst r = Ok (Rejected boom) /\
  Forall (fun ev => ~ is_stringify_ev ev) evs.
Proof.
  intros r evs.
  assert (H1 : process (host := demo_host) (fam := md) (Proc 1%positive) (Str "# a")
                       Undefined s_used = (fst r, snd r))
    by (vm_compute; reflexivity).
  assert (H2 : st_trace (snd r) = st_trace s_used ++ evs) by (vm_compute; reflexivity).
  assert (H3 : EvTransform B (Proc 1%positive) [Obj 2%positive; File 1%positive]
                           (Continued boom) ∈ evs)
    by (apply list_elem_of_In; simpl; right; left; reflexivity).
  assert (H4 : error_of (Continued boom) = Some boom) by reflexivity.
  split; [exact H2|]. split; [exact H4|].
  exact (transformer_error_rejects (host := demo_host) (fam := md) (Proc 1%positive)
           (Str "# a") Undefined s_used (fst r) (snd r) evs B (Proc 1%positive)
           [Obj 2%positive; File 1%positive] (Continued boom) boom H1 H2 H3 H4).
Defined.

Lemma parse_attaches_tree_witness :
  let b := MkBuilt 0 (File 1%positive) Undefined (Proc 1%positive) in
  let r := build_parser (fam := md) the_class (Str "# a") Undefined init_state in
  fst r = Ok (1%positive, b) /\
  b_file b = File 1%positive /\ b_settings b = Undefined.
Proof.
  intros b r.
  assert (H : build_parser (fam := md) the_class (Str "# a") Undefined init_state
              = (Ok (1%positive, b), snd r))
    by (vm_compute; reflexivity).
  split; [vm_compute; reflexivity|].
  pose proof (parse_attaches_tree (host := demo_host) (fam := md) the_class (Str "# a")
                Undefined init_state 1%positive b (snd r) H) as (Hf & Hs & _).
  split; [exact Hf|exact Hs].
Defined.

(** [Family.parse('# a')], evaluated: the Parser's tree is resolved and is
    in the slot of the carrier file; and a second [parse] of that file puts
    the new tree in the place of the first. *)
Example parse_evaluated :
  let r := parse (host := demo_host) (fam := md) the_class (Str "# a") Undefined init_state in
  let r' := parse (host := demo_host) (fam := md) the_class (File 1%positive) Undefined
                  (snd r) in
  fst r = Ok (Resolved (Obj 1%positive)) /\
  slot_tree (st_heap (snd r)) 1%positive "md" = Obj 1%positive /\
  fst r' = Ok (Resolved (Obj 2%positive)) /\
  slot_tree (st_heap (snd r')) 1%positive "md" = Obj 2%positive.
Proof. vm_compute. repeat split. Qed.


(** [A], [B], [C] registered in that order and run: [A] is called, then
    [B], which reports [boom]; [C] is not called and the callback gets
    [boom]. *)
Example run_ABC_stops_at_B :
  let s1 := snd (use_each (fam := md) (Proc 1%positive) [A; B; C] s_new) in
  st_trace (snd (run (host := demo_host) (fam := md) (Proc 1%positive) (Str "tree")
                     (File 1%positive) (Done (Fn (Closure 9))) s1))
  = [EvTransform A (Proc 1%positive) [Str "tree"; File 1%positive] Returned;
     EvTransform B (Proc 1%positive) [Str "tree"; File 1%positive] (Continued boom);
     EvCallback (Done (Fn (Closure 9))) [boom]].
Proof. vm_compute. reflexivity. Qed.

(** C10, as stated, fails on receivers that are not instances: with no
    receiver [run] throws a TypeError once the tree is resolved, and calls
    no callback; with the plain object 5, whose [ware] is the registry of
    the instance 1, the function [B] registered on that instance is
    called. *)
Lemma run_on_other_receivers :
  let r := run (host := demo_host) (fam := md) Undefined (Obj 1%positive) (File 1%positive)
               (Done C) s_parsed in
  let r' := run (host := demo_host) (fam := md) (Obj 5%positive) (Str "tree")
                (File 1%positive) (Done C) s_duck in
  fst r = Throw (TypeError "Cannot read property 'ware' of undefined") /\
  st_trace (snd r) = st_trace s_parsed /\
  is_Processor (Obj 5%positive) = false /\
  st_trace (snd r')
  = [EvTransform B (Proc 1%positive) [Str "tree"; File 1%positive] (Continued boom);
     EvCallback (Done C) [boom]].
Proof. vm_compute. repeat split. Qed.

Lemma run_without_registry_witness :
  let r := run (host := demo_host) (fam := md) the_class (Obj 1%positive) (File 1%positive)
               (Done C) s_parsed in
  absent the_class = false /\
  truthy (prop (st_heap s_parsed) the_class "ware") = false /\
  fst r = Ok (Obj 1%positive) /\
  st_trace (snd r)
  = st_trace s_parsed ++ [EvCallback (Done C) [Null; Obj 1%positive; File 1%positive]].
Proof.
  intros r.
  assert (H1 : absent the_class = false) by reflexivity.
  assert (H2 : truthy (prop (st_heap s_parsed) the_class "ware") = false) by reflexivity.
  assert (H3 : resolve_tree (fam := md) (Obj 1%positive)
                 (if is_function (File 1%positive) then Null else File 1%positive) s_parsed
               = (Ok (Obj 1%positive, File 1%positive),
                  snd (resolve_tree (fam := md) (Obj 1%positive) (File 1%positive) s_parsed)))
    by (vm_compute; reflexivity).
  assert (H4 : run (host := demo_host) (fam := md) the_class (Obj 1%positive)
                   (File 1%positive) (Done C) s_parsed = (fst r, snd r))
    by (vm_compute; reflexivity).
  pose proof (run_without_registry (host := demo_host) (fam := md) the_class
                (Obj 1%positive) (File 1%positive) (Done C) s_parsed (Obj 1%positive)
                (File 1%positive) _ (fst r) (snd r) H1 H2 H3 H4) as (Ht & _ & Hr & _).
  split; [exact H1|]. split; [exact H2|]. split; [vm_compute; reflexivity|exact Ht].
Defined.

(** [Family.process('# a heading')], evaluated: the Parser's root, no
    plugin, the Compiler's "0"; the promise resolves with the carrier file
    of the text and that result. *)
Example process_heading :
  let r := process (host := demo_host) (fam := md) the_class (Str "# a heading") Undefined
                   init_state in
  fst r = Ok (Resolved (MkProcessed (File 1%positive) (Str "0"))) /\
  contents (file_at (st_heap (snd r)) 1%positive) = "# a heading" /\
  st_trace (snd r)
  = [EvParse 0 (File 1%positive) (Obj 1%positive) (Proc 1%positive);
     EvCallback (Next 1%positive) [Null; Obj 2%positive; File 1%positive];
     EvStringify (Obj 2%positive) (File 1%positive) (Obj 1%positive);
     EvCompile 1 (File 1%positive) (Obj 1%positive) (Proc 1%positive)].
Proof. vm_compute. repeat split. Qed.

(** * The further properties, at work *)



Lemma run_file_first_witness :
  truthy (slot_tree (st_heap s_parsed) 1%positive "md") = true /\
  run (host := demo_host) (fam := md) the_class (File 1%positive) C (Done Undefined) s_parsed
  = run (host := demo_host) (fam := md) the_class (Obj 1%positive) (File 1%positive) (Done C)
        s_parsed.
Proof.
  assert (H1 : truthy (slot_tree (st_heap s_parsed) 1%positive "md") = true)
    by (vm_compute; reflexivity).
  split; [exact H1|].
  exact (proj1 (run_file_first (host := demo_host) (fam := md) the_class 1%positive C
                  (Done Undefined) s_parsed H1 eq_refl)).
Defined.

Lemma stringify_file_first_witness :
  truthy (slot_tree (st_heap s_parsed) 1%positive "md") = true /\
  stringify (host := demo_host) (fam := md) the_class (File 1%positive) (Str "x") Undefined
            s_parsed
  = stringify (host := demo_host) (fam := md) the_class (Obj 1%positive) (File 1%positive)
              (Str "x") s_parsed.
Proof.
  assert (H1 : truthy (slot_tree (st_heap s_parsed) 1%positive "md") = true)
    by (vm_compute; reflexivity).
  split; [exact H1|].
  exact (stringify_file_first (host := demo_host) (fam := md) the_class 1%positive (Str "x")
           Undefined s_parsed H1 eq_refl eq_refl).
Defined.


Lemma no_receiver_throws_witness :
  absent Undefined = true /\
  exists m s',
    parse (host := demo_host) (fam := md) Undefined (Str "# a") Undefined init_state
    = (Throw (TypeError m), s') /\ st_trace s' = st_trace init_state.
Proof.
  split; [reflexivity|].
  exact (proj1 (no_receiver_throws (host := demo_host) (fam := md) Undefined eq_refl)
           (Str "# a") Undefined init_state).
Defined.

Lemma no_receiver_is_the_class_witness :
  absent Undefined = true /\
  process (host := demo_host) (fam := md) Undefined (Str "# a") Undefined init_state
  = process (host := demo_host) (fam := md) the_class (Str "# a") Undefined init_state.
Proof.
  split; [reflexivity|].
  exact (proj2 (proj2 (proj2 (no_receiver_is_the_class (host := demo_host) (fam := md)
                                Undefined init_state eq_refl)))
           (Str "# a") Undefined).
Defined.

Lemma stringify_by_receiver_witness :
  resolve_tree (fam := md) (Obj 1%positive) (File 1%positive) s_parsed
  = (Ok (Obj 1%positive, File 1%positive),
     snd (resolve_tree (fam := md) (Obj 1%positive) (File 1%positive) s_parsed)) /\
  exists l,
    procs (st_heap s_parsed) !! l = None /\
    st_trace (snd (stringify (host := demo_host) (fam := md) the_class (Obj 1%positive)
                             (File 1%positive) (Str "x") s_parsed))
    = st_trace s_parsed ++ [EvCompile 1 (File 1%positive) (Str "x") (Proc l)].
Proof.
  assert (H : resolve_tree (fam := md) (Obj 1%positive)
                (if absent (Str "x") then Null else File 1%positive) s_parsed
              = (Ok (Obj 1%positive, File 1%positive),
                 snd (resolve_tree (fam := md) (Obj 1%positive) (File 1%positive) s_parsed)))
    by (vm_compute; reflexivity).
  split; [exact H|].
  destruct (proj2 (stringify_by_receiver (host := demo_host) (fam := md) (Obj 1%positive)
                     (File 1%positive) (Str "x") s_parsed (Obj 1%positive)
                     (File 1%positive) _ H)) as (l & sa & _ & Hl & E).
  exists l. split; [exact Hl|]. unfold the_class. rewrite E. reflexivity.
Defined.

Lemma stringify_ignores_given_tree_witness :
  truthy (slot_tree (st_heap s_parsed) 1%positive "md") = true /\
  truthy (Str "another tree") = true /\
  stringify (host := demo_host) (fam := md) the_class (Str "another tree") (File 1%positive)
            (Str "x") s_parsed
  = stringify (host := demo_host) (fam := md) the_class (Obj 1%positive) (File 1%positive)
              (Str "x") s_parsed.
Proof.
  assert (H1 : truthy (slot_tree (st_heap s_parsed) 1%positive "md") = true)
    by (vm_compute; reflexivity).
  split; [exact H1|]. split; [reflexivity|].
  exact (proj2 (stringify_ignores_given_tree (host := demo_host) (fam := md) the_class
                  1%positive (Str "another tree") (Str "x") s_parsed H1 eq_refl eq_refl)).
Defined.



Lemma process_of_tree_never_parses_witness :
  let r := process (host := demo_host) (fam := md) the_class (Obj 1%positive) Undefined
                   s_parsed in
  is_string (Obj 1%positive) || is_VFile (Obj 1%positive) = false /\
  truthy (Obj 1%positive) = true /\
  exists evs,
    st_trace (snd r) = st_trace s_parsed ++ evs /\
    Forall (fun ev => ~ is_parse_ev ev) evs.
Proof.
  intros r.
  assert (H : process (host := demo_host) (fam := md) the_class (Obj 1%positive) Undefined
                      s_parsed = (fst r, snd r))
    by (vm_compute; reflexivity).
  split; [reflexivity|]. split; [reflexivity|].
  exact (process_of_tree_never_parses (host := demo_host) (fam := md) the_class
           (Obj 1%positive) Undefined s_parsed (fst r) (snd r) eq_refl eq_refl H).
Defined.

Lemma process_in_three_stages_witness :
  let r := process (host := demo_host) (fam := md) (Proc 1%positive) (Str "# a") Undefined
                   s_new in
  exists pe re se,
    st_trace (snd r) = st_trace s_new ++ pe ++ re ++ se /\
    Forall is_parse_ev pe /\ Forall is_run_ev re /\ Forall is_stringify_ev se.
Proof.
  intros r.
  assert (H : process (host := demo_host) (fam := md) (Proc 1%positive) (Str "# a") Undefined
                      s_new = (fst r, snd r))
    by (vm_compute; reflexivity).
  exact (process_in_three_stages (host := demo_host) (fam := md) (Proc 1%positive)
           (Str "# a") Undefined s_new (fst r) (snd r) H).
Defined.

Lemma process_carries_one_file_witness :
  let r := process (host := demo_host) (fam := md) the_class (File 1%positive)
                   (Str "x") s_doc in
  is_string (File 1%positive) || is_VFile (File 1%positive) = true /\
  exists p evs,
    st_trace (snd r) = st_trace s_doc ++ evs /\
    Forall (carries 1%positive (Str "x") p) evs.
Proof.
  intros r.
  assert (H : process (host := demo_host) (fam := md) the_class (File 1%positive)
                      (Str "x") s_doc = (fst r, snd r))
    by (vm_compute; reflexivity).
  split; [reflexivity|].
  destruct (process_carries_one_file (host := demo_host) (fam := md) the_class
              (File 1%positive) (Str "x") s_doc (fst r) (snd r) eq_refl H)
    as (g & st & p & evs & Ht & HF & Hg & Hs & _).
  rewrite (Hg 1%positive eq_refl), (Hs eq_refl) in HF.
  exists p, evs. split; [exact Ht|exact HF].
Defined.

(** [Family.process(file, 'x')] on the carrier file 1 of [s_doc]: the
    Parser, the callback of the run and the Compiler all get the file 1,
    the Parser and the Compiler the settings and the new instance 1. *)
Example process_carries_evaluated :
  st_trace (snd (process (host := demo_host) (fam := md) the_class (File 1%positive)
                         (Str "x") s_doc))
  = [EvParse 0 (File 1%positive) (Str "x") (Proc 1%positive);
     EvCallback (Next 1%positive) [Null; Obj 2%positive; File 1%positive];
     EvStringify (Obj 2%positive) (File 1%positive) (Str "x");
     EvCompile 1 (File 1%positive) (Str "x") (Proc 1%positive)].
Proof. vm_compute. repeat split. Qed.

Lemma failing_parser_never_resolves : parser_never_resolves (host := failing_host).
Proof. intros impl file settings p h. reflexivity. Qed.

Lemma process_parse_failure_witness :
  let r := process (host := failing_host) (fam := md) the_class (Str "# a") Undefined
                   init_state in
  parser_never_resolves (host := failing_host) /\
  is_string (Str "# a") || is_VFile (Str "# a") = true /\
  fst r = Ok (Rejected boom) /\
  exists e evs,
    fst r = Ok (Rejected e) /\ truthy e = true /\
    st_trace (snd r) = st_trace init_state ++ evs /\ Forall is_parse_ev evs.
Proof.
  intros r.
  assert (H : process (host := failing_host) (fam := md) the_class (Str "# a") Undefined
                      init_state = (fst r, snd r))
    by (vm_compute; reflexivity).
  split; [exact failing_parser_never_resolves|]. split; [reflexivity|].
  split; [vm_compute; reflexivity|].
  exact (process_parse_failure (host := failing_host) (fam := md) the_class (Str "# a")
           Undefined init_state (fst r) (snd r) failing_parser_never_resolves eq_refl H).
Defined.
